(** * CamHub client: live-view session lifecycle and reconciliation loop

    A shallow embedding of [src/app.js]:
    - [Whep]  : [startWhep] and the [CameraTile] bind effect, as an event-driven
                machine over one controller instance; the platform's URL
                constructor is a parameter of it;
    - [App]   : the [App] component: polling cycles, snapshot history and the
                one-time configuration fetch; every event is its handler
                followed by the render of the new state, and a render that
                throws unmounts the tree.

    JavaScript objects with identity (peer connections, media streams) are
    numbered; promises are modelled by the event that settles them. *)

From Stdlib Require Import Ascii String.
From stdpp Require Import base list strings.

Local Open Scope string_scope.

(** ** JavaScript truthiness of the values the code tests *)

Definition truthy_str (s : string) : bool :=
  match s with EmptyString => false | _ => true end.

(** [x || y] on strings. *)
Definition or_str (x y : string) : string := if truthy_str x then x else y.

(** A nullable string ([null] is [None]) used as a condition. *)
Definition truthy_ostr (o : option string) : bool :=
  match o with Some s => truthy_str s | None => false end.

(** ** Session negotiation and the live-view controller *)

Module Whep.

(** Media streams and peer connections are JavaScript objects compared by
    identity: they are numbered. *)
Definition stream := nat.

(** The part of the [fetch] response [startWhep] can look at before the
    body is read. *)
Record response := mkResponse {
  r_status   : nat;
  r_location : option string      (* res.headers.get("Location") *)
}.

(** [{ pc, sessionUrl }]; the connection is the one opened by the bind
    cycle of that number. *)
Record session := mkSession {
  s_pc  : nat;
  s_url : option string
}.

(** Where a call of [startWhep] is suspended, or how it ended. *)
Inductive stage :=
| AwaitOffer                                   (* await pc.createOffer() *)
| AwaitLocal (offer : string)                  (* await pc.setLocalDescription(offer) *)
| AwaitFetch                                   (* await fetch(whepUrl, POST) *)
| AwaitText (res : response)                   (* await res.text() *)
| AwaitRemote (res : response) (answer : string) (* await pc.setRemoteDescription *)
| Resolved (s : session)
| Rejected.

Definition awaiting (s : stage) : bool :=
  match s with Resolved _ | Rejected => false | _ => true end.

(** One run of the bind effect: the closure variable [active], the
    endpoint, and the peer connection and suspension point of the
    [startWhep] call it made. *)
Record cycle := mkCycle {
  c_active : bool;
  c_url    : string;
  c_open   : bool;                (* the connection has not been closed *)
  c_stage  : stage
}.

Inductive method := POST | DELETE.

Record request := mkRequest {
  q_method : method;
  q_url    : string;
  q_body   : string
}.

Record camera := mkCamera {
  id          : string;
  stream_path : string            (* empty when the field is missing *)
}.

(** One [CameraTile] instance. *)
Record tile := mkTile {
  srcObject  : option stream;             (* video.srcObject *)
  sessionRef : option session;            (* sessionRef.current *)
  connecting : bool;
  error      : string;
  cycles     : list cycle;
  cleanup    : option nat;                (* cycle whose cleanup React holds *)
  deps       : option (string * string);  (* [camera.id, webrtcBase] of the last run *)
  unmounted  : bool;
  requests   : list request               (* calls of fetch, oldest first *)
}.

Definition init : tile :=
  mkTile None None true "" [] None None false [].

(** *** Handlers: state passing with exceptions *)

Inductive outcome (A : Type) :=
| Returned (a : A) (t : tile)
| Raised (e : string) (t : tile).
Arguments Returned {A} a t.
Arguments Raised {A} e t.

Definition Act (A : Type) := tile -> outcome A.

#[global] Instance act_ret : MRet Act := fun A a t => Returned a t.

#[global] Instance act_bind : MBind Act := fun A B k m t =>
  match m t with
  | Returned a t' => k a t'
  | Raised e t' => Raised e t'
  end.

Definition throw {A} (e : string) : Act A := fun t => Raised e t.
Definition get {A} (f : tile -> A) : Act A := fun t => Returned (f t) t.
Definition modify (f : tile -> tile) : Act unit := fun t => Returned tt (f t).

(** [o.f] raises on [null]; [o?.f] yields [undefined]. *)
Definition member {A B} (o : option A) (f : A -> B) : Act B :=
  match o with
  | Some a => mret (f a)
  | None => throw "TypeError"
  end.

Definition opt_chain {A B} (o : option A) (f : A -> B) : option B :=
  match o with Some a => Some (f a) | None => None end.

Definition set_srcObject (v : option stream) (t : tile) : tile :=
  mkTile v (sessionRef t) (connecting t) (error t) (cycles t) (cleanup t)
         (deps t) (unmounted t) (requests t).
Definition set_sessionRef (v : option session) (t : tile) : tile :=
  mkTile (srcObject t) v (connecting t) (error t) (cycles t) (cleanup t)
         (deps t) (unmounted t) (requests t).
Definition setConnecting (v : bool) (t : tile) : tile :=
  mkTile (srcObject t) (sessionRef t) v (error t) (cycles t) (cleanup t)
         (deps t) (unmounted t) (requests t).
Definition setError (v : string) (t : tile) : tile :=
  mkTile (srcObject t) (sessionRef t) (connecting t) v (cycles t) (cleanup t)
         (deps t) (unmounted t) (requests t).
Definition set_cycles (v : list cycle) (t : tile) : tile :=
  mkTile (srcObject t) (sessionRef t) (connecting t) (error t) v (cleanup t)
         (deps t) (unmounted t) (requests t).
Definition set_effect (cl : option nat) (d : option (string * string))
    (t : tile) : tile :=
  mkTile (srcObject t) (sessionRef t) (connecting t) (error t) (cycles t) cl
         d (unmounted t) (requests t).
Definition set_unmounted (t : tile) : tile :=
  mkTile (srcObject t) (sessionRef t) (connecting t) (error t) (cycles t) None
         (deps t) true (requests t).
Definition fetch (q : request) (t : tile) : tile :=
  mkTile (srcObject t) (sessionRef t) (connecting t) (error t) (cycles t)
         (cleanup t) (deps t) (unmounted t) (requests t ++ [q]).

Definition upd_cycle (c : nat) (f : cycle -> cycle) (t : tile) : tile :=
  set_cycles (alter f c (cycles t)) t.

Definition deactivate (cy : cycle) : cycle :=
  mkCycle false (c_url cy) (c_open cy) (c_stage cy).
Definition close (cy : cycle) : cycle :=
  mkCycle (c_active cy) (c_url cy) false (c_stage cy).
Definition at_stage (s : stage) (cy : cycle) : cycle :=
  mkCycle (c_active cy) (c_url cy) (c_open cy) s.

Definition pc_is_open (t : tile) (p : nat) : bool :=
  match cycles t !! p with Some cy => c_open cy | None => false end.

Definition is_active (t : tile) (c : nat) : bool :=
  match cycles t !! c with Some cy => c_active cy | None => false end.

Definition stage_of (t : tile) (c : nat) : option stage :=
  c_stage <$> cycles t !! c.

(** *** [startWhep] *)

(** The track-arrival handler [pc.ontrack]. *)
Definition ontrack (streams : list stream) : Act unit :=
  video ← get srcObject;
  match streams with                       (* const [stream] = event.streams *)
  | stream :: _ =>
      if bool_decide (video ≠ Some stream)
      then modify (set_srcObject (Some stream))
      else mret tt
  | [] => mret tt
  end.

(** The synchronous prefix of [startWhep], up to its first [await]: a new
    peer connection with its handler, the offer requested.  The enclosing
    effect run has just set [active = true]. *)
Definition startWhep (whepUrl : string) : Act nat :=
  cs ← get cycles;
  modify (set_cycles (cs ++ [mkCycle true whepUrl true AwaitOffer]));;
  mret (length cs).

Section Platform.

(** The platform's URL constructor followed by its serialiser,
    [new URL(input, base).toString()]; [None] when the constructor throws. *)
Variable URL : string -> string -> option string.

(** [location ? new URL(location, whepUrl).toString() : null]; the outer
    [None] is the exception of the constructor. *)
Definition session_url (location : option string) (whepUrl : string)
    : option (option string) :=
  match location with
  | Some l =>
      if truthy_str l then
        match URL l whepUrl with
        | Some u => Some (Some u)
        | None => None
        end
      else Some None
  | None => Some None
  end.

(** The callbacks the controller chains on the promise of [startWhep]. *)
Definition on_resolved (c : nat) (s : session) : Act unit :=
  active ← get (fun t => is_active t c);
  if negb active then mret tt
  else modify (set_sessionRef (Some s));; modify (setConnecting false).

Definition on_rejected (c : nat) : Act unit :=
  active ← get (fun t => is_active t c);
  if negb active then mret tt
  else modify (setError "WebRTC failed");; modify (setConnecting false).

(** What the platform hands back when an awaited promise settles. *)
Inductive payload :=
| P_offer (sdp : string)
| P_unit
| P_response (res : response)
| P_text (body : string).

Inductive reply := Fulfil (p : payload) | Reject.

Definition reject (c : nat) : Act unit :=
  modify (upd_cycle c (at_stage Rejected));; on_rejected c.

(** [startWhep] resumes in cycle [c]; [None] when the reply does not fit
    the promise the call is waiting for. *)
Definition resume (c : nat) (cy : cycle) (r : reply) : option (Act unit) :=
  match c_stage cy, r with
  | AwaitOffer, Fulfil (P_offer sdp) =>
      Some (modify (upd_cycle c (at_stage (AwaitLocal sdp))))
  | AwaitLocal sdp, Fulfil P_unit =>
      Some (modify (fetch (mkRequest POST (c_url cy) sdp));;
            modify (upd_cycle c (at_stage AwaitFetch)))
  | AwaitFetch, Fulfil (P_response res) =>
      Some (modify (upd_cycle c (at_stage (AwaitText res))))
  | AwaitText res, Fulfil (P_text answerSdp) =>
      Some (modify (upd_cycle c (at_stage (AwaitRemote res answerSdp))))
  | AwaitRemote res _, Fulfil P_unit =>
      Some (match session_url (r_location res) (c_url cy) with
            | Some sessionUrl =>
                let s := mkSession c sessionUrl in
                modify (upd_cycle c (at_stage (Resolved s)));; on_resolved c s
            | None => reject c
            end)
  | (AwaitOffer | AwaitLocal _ | AwaitFetch | AwaitText _ | AwaitRemote _ _),
    Reject => Some (reject c)
  | _, _ => None
  end.

(** *** The bind effect of [CameraTile] *)

(** [fetch] stringifies its argument. *)
Definition url_arg (o : option string) : string := default "null" o.

(** The cleanup returned by the effect run of cycle [c]. *)
Definition teardown (c : nat) : Act unit :=
  modify (upd_cycle c deactivate);;                       (* active = false *)
  cur ← get sessionRef;
  (if bool_decide (is_Some (opt_chain cur s_pc))          (* current?.pc *)
   then cur' ← get sessionRef;
        pc ← member cur' s_pc;
        modify (upd_cycle pc close)
   else mret tt);;
  cur ← get sessionRef;
  (if truthy_ostr (mjoin (opt_chain cur s_url))           (* current?.sessionUrl *)
   then cur' ← get sessionRef;
        url ← member cur' s_url;
        modify (fetch (mkRequest DELETE (url_arg url) ""))
   else mret tt).

(** The effect body.  The video element is rendered unconditionally, so
    [videoRef.current] is set whenever an effect runs. *)
Definition bind_effect (cam : camera) (webrtcBase : string) : Act (option nat) :=
  if negb (truthy_str webrtcBase) then mret None
  else
    modify (setConnecting true);;
    modify (setError "");;
    let streamPath := or_str (stream_path cam) (id cam) in
    let whepUrl := webrtcBase +:+ "/" +:+ streamPath +:+ "/whep" in
    c ← startWhep whepUrl;
    mret (Some c).

(** React: the cleanup of the previous run, if it returned one. *)
Definition run_cleanup : Act unit :=
  cl ← get cleanup;
  match cl with Some c => teardown c | None => mret tt end.

(** A commit with the given props: the effect reruns when a dependency
    changed, after the previous cleanup. *)
Definition render (cam : camera) (webrtcBase : string) : Act unit :=
  d ← get deps;
  if bool_decide (d = Some (id cam, webrtcBase)) then mret tt
  else
    run_cleanup;;
    cl ← bind_effect cam webrtcBase;
    modify (set_effect cl (Some (id cam, webrtcBase))).

Definition unmount : Act unit := run_cleanup;; modify set_unmounted.

(** *** The controller as a machine *)

Inductive event :=
| Render (cam : camera) (webrtcBase : string)
| Unmount
| Settle (c : nat) (r : reply)            (* the promise cycle [c] awaits *)
| Track (c : nat) (streams : list stream) (* a track event on its connection *)
| DeleteSettled (i : nat) (ok : bool).    (* the DELETE of request [i] *)

Definition is_delete (q : request) : bool :=
  match q_method q with DELETE => true | POST => false end.

(** The handler an event runs; [None] when the event cannot occur. *)
Definition handler (t : tile) (e : event) : option (Act unit) :=
  match e with
  | Render cam base =>
      if unmounted t then None else Some (render cam base)
  | Unmount =>
      if unmounted t then None
      else match deps t with Some _ => Some unmount | None => None end
  | Settle c r =>
      match cycles t !! c with Some cy => resume c cy r | None => None end
  | Track c streams =>
      if pc_is_open t c then Some (ontrack streams) else None
  | DeleteSettled i ok =>
      match requests t !! i with
      | Some q =>
          if is_delete q
          then Some (if ok then mret tt else mret tt)   (* .catch(() => {}) *)
          else None
      | None => None
      end
  end.

Definition step (t : tile) (e : event) : option (outcome unit) :=
  match handler t e with Some h => Some (h t) | None => None end.

(** A run fails when an event cannot occur or a handler raises. *)
Fixpoint run (t : tile) (es : list event) : option tile :=
  match es with
  | [] => Some t
  | e :: es' =>
      match step t e with
      | Some (Returned _ t') => run t' es'
      | _ => None
      end
  end.

End Platform.


(** A connection that is open although its negotiation was superseded or
    has failed, and that the controller does not reference. *)
Definition leaked (t : tile) (p : nat) : Prop :=
  exists cy,
    cycles t !! p = Some cy
    /\ c_open cy = true
    /\ (c_active cy = false \/ c_stage cy = Rejected)
    /\ forall s, sessionRef t = Some s -> s_pc s <> p.

(** Events of a controller that is never given a gateway base. *)
Definition unbound (e : event) : bool :=
  match e with
  | Render _ webrtcBase => negb (truthy_str webrtcBase)
  | _ => true
  end.

Definition is_track (e : event) : bool :=
  match e with Track _ _ => true | _ => false end.

(** A controller that has not started any bind cycle. *)
Definition idle (t : tile) : Prop :=
  cycles t = [] /\ cleanup t = None /\ requests t = []
  /\ sessionRef t = None /\ srcObject t = None
  /\ error t = "" /\ connecting t = true.

(** What the cleanup leaves behind, case by case on the retained session. *)
Definition torn_down (c : nat) (t : tile) : tile :=
  match sessionRef t with
  | Some s =>
      let t1 := upd_cycle (s_pc s) close (upd_cycle c deactivate t) in
      if truthy_ostr (s_url s)
      then fetch (mkRequest DELETE (url_arg (s_url s)) "") t1
      else t1
  | None => upd_cycle c deactivate t
  end.

(** Unfold the handler combinators and evaluate. *)
Ltac act :=
  cbv [mbind act_bind mret act_ret modify get member throw opt_chain mjoin
       option_join]; cbn.

End Whep.

(** Concrete runs of one controller. *)
Module Scenario.
Import Whep.

Definition cam1 : camera := mkCamera "1" "cam1".
Definition cam2 : camera := mkCamera "2" "".
Definition gw : string := "https://gw".

(** The platform in the scenarios.  They consult the URL constructor on one
    input only: the Location [/sessions/abc123] against the endpoint of
    camera 1, which resolves on the endpoint's origin.  No scenario gets to
    another call. *)
Definition href (input base : string) : option string :=
  if String.eqb input "/sessions/abc123"
     && String.eqb base "https://gw/cam1/whep"
  then Some "https://gw/sessions/abc123"
  else None.

Definition sdp_offer : string :=
  "v=0 o=- 1 1 IN IP4 0.0.0.0 s=- t=0 0 m=video 9 UDP/TLS/RTP/SAVPF 96 a=recvonly".
Definition sdp_answer : string :=
  "v=0 o=- 2 2 IN IP4 0.0.0.0 s=- t=0 0 m=video 9 UDP/TLS/RTP/SAVPF 96 a=sendonly".

(** Cycle [c] up to the gateway's response. *)
Definition to_response (c : nat) (res : response) : list event :=
  [ Settle c (Fulfil (P_offer sdp_offer));
    Settle c (Fulfil P_unit);
    Settle c (Fulfil (P_response res)) ].

(** The answer is read and applied; media of stream [m] arrives while it
    is. *)
Definition to_live (c : nat) (m : stream) : list event :=
  [ Settle c (Fulfil (P_text sdp_answer));
    Track c [m];
    Settle c (Fulfil P_unit) ].

Definition created : response := mkResponse 201 (Some "/sessions/abc123").

(** The request for the answer fails on the network. *)
Definition fetch_fails (c : nat) : list event :=
  [ Settle c (Fulfil (P_offer sdp_offer));
    Settle c (Fulfil P_unit);
    Settle c Reject ].

(** A first bind that goes live. *)
Definition live : list event :=
  Render cam1 gw :: to_response 0 created ++ to_live 0 7.

End Scenario.

(** ** The dashboard: polling cycles, snapshot history, configuration *)

Module App.

(** Values produced by [res.json()].  Integers stand for JSON numbers. *)
#[warnings="-register-all"]
Inductive json :=
| JNull
| JBool (b : bool)
| JNum (n : Z)
| JStr (s : string)
| JArr (items : list json)
| JObj (fields : list (string * json)).

(** [undefined] is [None]. *)
Definition truthy (v : option json) : bool :=
  match v with
  | None | Some JNull => false
  | Some (JBool b) => b
  | Some (JNum n) => negb (Z.eqb n 0)
  | Some (JStr s) => truthy_str s
  | Some (JArr _) | Some (JObj _) => true
  end.

(** [Array.isArray]. *)
Definition isArray (v : json) : bool :=
  match v with JArr _ => true | _ => false end.

(** The value of a key in a parsed object: the last occurrence wins. *)
Fixpoint lookup_field (k : string) (fields : list (string * json)) : option json :=
  match fields with
  | [] => None
  | (k', v) :: rest =>
      match lookup_field k rest with
      | Some w => Some w
      | None => if String.eqb k k' then Some v else None
      end
  end.

(** [v.k] on a parsed value: reading a property of [null] raises (outer
    [None]); primitives and arrays have no such property. *)
Definition prop (v : json) (k : string) : option (option json) :=
  match v with
  | JNull => None
  | JObj fields => Some (lookup_field k fields)
  | _ => Some None
  end.

(** How a [fetch] followed by [res.json()] ends.  The status is part of the
    response; no caller reads it. *)
Inductive http_reply :=
| NetworkError
| Reply (status : nat) (body : option json).   (* [None]: body is not JSON *)

(** The value an [apiClient] method resolves with; [None] when its promise
    rejects. *)
Definition res_json (r : http_reply) : option json :=
  match r with
  | NetworkError => None
  | Reply _ body => body
  end.

Record snapshot := mkSnapshot {
  sn_id  : string;
  sn_ts  : Z;
  sn_url : string
}.

Inductive call :=
| GetConfig
| ListCameras
| ListMotion (limit : nat)
| TakeSnapshot (id : string)
| DeleteCamera (id : string).

#[global] Instance call_eq_dec : EqDecision call.
Proof. solve_decision. Defined.

Record app := mkApp {
  cameras      : json;
  snapshots    : list snapshot;
  webrtcBase   : json;
  motionEvents : json;
  mounted      : bool;               (* the root still renders [App] *)
  timer        : bool;               (* setInterval(refresh, 5000) is set *)
  motionTimer  : bool;               (* setInterval(refreshMotion, 10000) is set *)
  storage      : option (list snapshot);  (* localStorage camhub_snapshots *)
  pending      : list call;          (* requests in flight *)
  unhandled    : nat                 (* promise rejections nobody handles *)
}.

Definition setCameras (v : json) (a : app) : app :=
  mkApp v (snapshots a) (webrtcBase a) (motionEvents a) (mounted a) (timer a)
        (motionTimer a) (storage a) (pending a) (unhandled a).
Definition setSnapshots (f : list snapshot -> list snapshot) (a : app) : app :=
  mkApp (cameras a) (f (snapshots a)) (webrtcBase a) (motionEvents a)
        (mounted a) (timer a) (motionTimer a) (storage a) (pending a)
        (unhandled a).
Definition setWebrtcBase (v : json) (a : app) : app :=
  mkApp (cameras a) (snapshots a) v (motionEvents a) (mounted a) (timer a)
        (motionTimer a) (storage a) (pending a) (unhandled a).
Definition setMotionEvents (v : json) (a : app) : app :=
  mkApp (cameras a) (snapshots a) (webrtcBase a) v (mounted a) (timer a)
        (motionTimer a) (storage a) (pending a) (unhandled a).
Definition set_storage (v : option (list snapshot)) (a : app) : app :=
  mkApp (cameras a) (snapshots a) (webrtcBase a) (motionEvents a) (mounted a)
        (timer a) (motionTimer a) v (pending a) (unhandled a).
Definition set_pending (v : list call) (a : app) : app :=
  mkApp (cameras a) (snapshots a) (webrtcBase a) (motionEvents a) (mounted a)
        (timer a) (motionTimer a) (storage a) v (unhandled a).
Definition rejection (a : app) : app :=
  mkApp (cameras a) (snapshots a) (webrtcBase a) (motionEvents a) (mounted a)
        (timer a) (motionTimer a) (storage a) (pending a) (S (unhandled a)).

(** The cleanup of the mount effect, [clearInterval] twice; it runs when
    the root unmounts [App]. *)
Definition cleanup (a : app) : app :=
  mkApp (cameras a) (snapshots a) (webrtcBase a) (motionEvents a) false
        false false (storage a) (pending a) (unhandled a).

Definition request (c : call) (a : app) : app :=
  set_pending (pending a ++ [c]) a.

(** Remove the first occurrence of a call in flight. *)
Fixpoint take (c : call) (l : list call) : option (list call) :=
  match l with
  | [] => None
  | x :: rest =>
      if bool_decide (x = c) then Some rest
      else match take c rest with
           | Some rest' => Some (x :: rest')
           | None => None
           end
  end.

(** [s.replace(/\/$/, "")]. *)
Fixpoint strip_slash (s : string) : string :=
  match s with
  | EmptyString => EmptyString
  | String a rest =>
      match rest with
      | EmptyString => if Ascii.eqb a "/" then EmptyString else s
      | _ => String a (strip_slash rest)
      end
  end.

(** ** Rendering

    [App] and its tiles are rendered again after every change of state.  An
    exception in a render is caught by nobody (there is no error boundary),
    so the root unmounts the whole tree.

    The render reads the collections as follows: it calls [cameras.map] and
    reads a property of every element, the tiles render [camera.name] and
    [camera.status || "offline"] as children, and the motion list reads a
    property of every element.  Converting a parsed value to text (in a key,
    a class name or a date) is taken to succeed; the one parsed value for
    which it does not, an object with a key [toString], is outside the
    model. *)

(** What the renderer accepts as a child: text and numbers, arrays of
    children; [true], [false] and [null] render nothing; a plain object is
    refused with an exception. *)
Fixpoint valid_child (v : json) : bool :=
  match v with
  | JObj _ => false
  | JArr items => forallb valid_child items
  | _ => true
  end.

Definition valid_ochild (v : option json) : bool :=
  match v with
  | Some w => valid_child w
  | None => true
  end.

(** One element of [cameras]: the callback of [cameras.map] reads
    [camera.id], the tile renders [camera.name] and
    [camera.status || "offline"] as children. *)
Definition tile_renders (camera : json) : bool :=
  match prop camera "id", prop camera "name", prop camera "status" with
  | Some _, Some name, Some status =>
      valid_ochild name && (if truthy status then valid_ochild status else true)
  | _, _, _ => false
  end.

(** One element of [motionEvents]: the callback reads [event.camera_id];
    its label is text, or the name of a camera that is also rendered as a
    tile. *)
Definition motion_renders (event : json) : bool :=
  match prop event "camera_id" with
  | Some _ => true
  | None => false
  end.

(** [motionEvents.length ? ... motionEvents.map(...) ... : null]. *)
Definition motion_list_renders (v : json) : bool :=
  match v with
  | JArr events => forallb motion_renders events
  | JNull => false                               (* [null.length] *)
  | JBool _ | JNum _ => true                     (* no [length]: nothing shown *)
  | JStr s => negb (truthy_str s)                (* a string has no [map] *)
  | JObj fields => negb (truthy (lookup_field "length" fields))
  end.

(** The render of [App] returns: [cameras.map] is there to call and every
    tile and every motion item renders. *)
Definition render_ok (a : app) : bool :=
  match cameras a with
  | JArr cams => forallb tile_renders cams && motion_list_renders (motionEvents a)
  | _ => false
  end.

(** The render that follows a change of state. *)
Definition commit (a : app) : app :=
  if render_ok a then a else cleanup a.

(** After the root has unmounted [App], a continuation that was waiting
    still runs: what it sets is dropped and no effect follows, but its
    requests go out and its rejections are reported. *)
Definition detached (a a' : app) : app :=
  mkApp (cameras a) (snapshots a) (webrtcBase a) (motionEvents a) (mounted a)
        (timer a) (motionTimer a) (storage a) (pending a') (unhandled a').

Section Env.

(** [window.__CAMHUB_ENV__.CAMHUB_API_BASE] (empty when unset) and
    [window.location]. *)
Variables (env_api_base protocol hostname : string).

Definition apiBase : string := strip_slash (or_str env_api_base "").

Definition buildApiUrl (path : string) : string :=
  if negb (truthy_str apiBase) then path else apiBase +:+ path.

(** The effect that persists the history whenever it changed; the flag
    tells whether [localStorage.setItem] succeeds. *)
Definition persist (storage_ok : bool) (a : app) : app :=
  if storage_ok then set_storage (Some (snapshots a)) a
  else a.                                     (* catch: ignore storage errors *)

(** First render and its effects.  [stored] is the history found in
    storage, if reading and parsing it succeeds; the storage is written by
    this program only, so what is found is a list of records. *)
Definition mount (stored : option (list snapshot)) (storage_ok : bool) : app :=
  persist storage_ok
    (mkApp (JArr []) (default [] stored) (JStr "") (JArr []) true true true
           stored [GetConfig; ListCameras; ListMotion 50] 0).

(** The synchronous part of the handlers: the request goes out. *)
Definition refresh (a : app) : app := request ListCameras a.
Definition refreshMotion (a : app) : app := request (ListMotion 50) a.
Definition handleSnapshot (id : string) (a : app) : app :=
  request (TakeSnapshot id) a.
Definition handleDelete (id : string) (confirmed : bool) (a : app) : app :=
  if confirmed then request (DeleteCamera id) a else a.

(** The continuation of [getConfig().then(...)]. *)
Definition on_config (r : http_reply) (a : app) : app :=
  match res_json r with
  | None => rejection a
  | Some cfg =>
      let fallback := protocol +:+ "//" +:+ hostname +:+ ":8889" in
      match prop cfg "webrtcBase" with
      | None => rejection a
      | Some v =>
          setWebrtcBase (if truthy v then default JNull v else JStr fallback) a
      end
  end.

(** [refresh] after its [await]: the state is set, whatever the reply
    parsed to.  The render of the new state follows in [step] ([commit]). *)
Definition refresh_settled (r : http_reply) (a : app) : app :=
  match res_json r with
  | None => rejection a
  | Some data => setCameras data a
  end.

(** [refreshMotion] after its [await]: only an array is set. *)
Definition refreshMotion_settled (r : http_reply) (a : app) : app :=
  match res_json r with
  | None => rejection a
  | Some data => if isArray data then setMotionEvents data a else a
  end.

(** [handleSnapshot] after its [await]; [now] is [Date.now()]. *)
Definition handleSnapshot_settled (id : string) (r : http_reply) (now : Z)
    (storage_ok : bool) (a : app) : app :=
  match res_json r with
  | None => rejection a
  | Some data =>
      match prop data "ok", prop data "path" with
      | Some ok, Some path =>
          if truthy ok && truthy path then
            match path with
            | Some (JStr p) =>
                let url := if String.prefix "http" p then p else buildApiUrl p in
                persist storage_ok
                  (setSnapshots (fun prev => mkSnapshot id now url :: prev) a)
            | _ => rejection a               (* no [startsWith] on the value *)
            end
          else a
      | _, _ => rejection a
      end
  end.

(** [handleDelete] after its [await]. *)
Definition handleDelete_settled (r : http_reply) (a : app) : app :=
  match res_json r with
  | None => rejection a
  | Some data =>
      match prop data "ok" with
      | Some ok => if truthy ok then refresh a else a
      | None => rejection a
      end
  end.

Inductive event :=
| ConfigSettled (r : http_reply)
| CamerasSettled (r : http_reply)
| MotionSettled (r : http_reply)
| Tick
| MotionTick
| SnapshotClick (id : string)
| SnapshotSettled (id : string) (r : http_reply) (now : Z) (storage_ok : bool)
| DeleteClick (id : string) (confirmed : bool)
| DeleteSettled (id : string) (r : http_reply).

(** The events that resume a continuation; the others come from a timer or
    from a button of a tile. *)
Definition is_reply (e : event) : bool :=
  match e with
  | ConfigSettled _ | CamerasSettled _ | MotionSettled _
  | SnapshotSettled _ _ _ _ | DeleteSettled _ _ => true
  | Tick | MotionTick | SnapshotClick _ | DeleteClick _ _ => false
  end.

(** A reply needs its request in flight; a tick needs its timer. *)
Definition settle (c : call) (k : app -> app) (a : app) : option app :=
  match take c (pending a) with
  | Some rest => Some (k (set_pending rest a))
  | None => None
  end.

(** What the code of the handler does. *)
Definition handle (a : app) (e : event) : option app :=
  match e with
  | ConfigSettled r => settle GetConfig (on_config r) a
  | CamerasSettled r => settle ListCameras (refresh_settled r) a
  | MotionSettled r => settle (ListMotion 50) (refreshMotion_settled r) a
  | Tick => if timer a then Some (refresh a) else None
  | MotionTick => if motionTimer a then Some (refreshMotion a) else None
  | SnapshotClick id => Some (handleSnapshot id a)
  | SnapshotSettled id r now ok =>
      settle (TakeSnapshot id) (handleSnapshot_settled id r now ok) a
  | DeleteClick id confirmed => Some (handleDelete id confirmed a)
  | DeleteSettled id r => settle (DeleteCamera id) (handleDelete_settled r) a
  end.

(** One event of the dashboard: the handler, then the render.  Once the
    root has unmounted the tree there are no buttons and no timers left;
    replies still arrive. *)
Definition step (a : app) (e : event) : option app :=
  if mounted a then commit <$> handle a e
  else if is_reply e then detached a <$> handle a e
  else None.

Fixpoint run (a : app) (es : list event) : option app :=
  match es with
  | [] => Some a
  | e :: es' =>
      match step a e with
      | Some a' => run a' es'
      | None => None
      end
  end.

End Env.

(** No configuration request in flight and no base known. *)
Definition unconfigured (a : app) : Prop :=
  ~ In GetConfig (pending a) /\ webrtcBase a = JStr "".

Definition is_config_call (c : call) : bool :=
  match c with GetConfig => true | _ => false end.

Definition config_calls (l : list call) : nat :=
  length (List.filter is_config_call l).

(** The configuration is asked for once and the base is empty until the
    answer arrives. *)
Definition configuring (a : app) : Prop :=
  (config_calls (pending a) = 1 /\ webrtcBase a = JStr "")
  \/ config_calls (pending a) = 0.

End App.

(** Concrete states and replies of the dashboard. *)
Module AppScenario.
Import App.

Definition two_cameras : json :=
  JArr [ JObj [("id", JStr "1"); ("name", JStr "door")];
         JObj [("id", JStr "2"); ("name", JStr "yard")] ].

Definition one_event : json :=
  JArr [ JObj [("id", JNum 5); ("camera_id", JStr "1"); ("ts", JNum 1700)] ].

(** The first replies of both polls. *)
Definition first_polls : list event :=
  [ CamerasSettled (Reply 200 (Some two_cameras));
    MotionSettled (Reply 200 (Some one_event)) ].

(** A dashboard that has already polled both collections once. *)
Definition polled : app :=
  setMotionEvents one_event (setCameras two_cameras (mount None true)).

(** An error response whose body is a JSON object. *)
Definition error_reply : http_reply :=
  Reply 500 (Some (JObj [("error", JStr "unavailable")])).

(** An error response whose body is a JSON array. *)
Definition error_array_reply : http_reply := Reply 503 (Some (JArr [])).

Definition snapshot_reply : http_reply :=
  Reply 200 (Some (JObj [("ok", JBool true); ("path", JStr "/snapshots/1.jpg")])).

End AppScenario.

(** Counting on runs of the dashboard. *)
Module AppFacts.
Import App.

(** Snapshot requests in flight. *)
Definition is_snapshot_call (c : call) : bool :=
  match c with TakeSnapshot _ => true | _ => false end.

Definition snapshot_calls (l : list call) : nat :=
  length (List.filter is_snapshot_call l).

Definition is_snapshot_click (e : event) : bool :=
  match e with SnapshotClick _ => true | _ => false end.

Definition clicks (es : list event) : nat :=
  length (List.filter is_snapshot_click es).

(** The events after which [localStorage.setItem] was called and failed. *)
Definition storage_failed (e : event) : bool :=
  match e with
  | SnapshotSettled _ _ _ storage_ok => negb storage_ok
  | _ => false
  end.

(** A reply that carries what [handleSnapshot] asks for. *)
Definition snapshot_path (r : http_reply) : option string :=
  match res_json r with
  | Some data =>
      match prop data "ok", prop data "path" with
      | Some ok, Some (Some (JStr p)) =>
          if truthy ok && truthy_str p then Some p else None
      | _, _ => None
      end
  | None => None
  end.

End AppFacts.

(** The controller's moves, one shape per way a handler can end. *)
Module Moves.
Import Whep.

(** The state after React ran the cleanup it holds, if any. *)
Definition cleaned (t : tile) : tile :=
  match cleanup t with Some c => torn_down c t | None => t end.

(** The endpoint the bind effect builds. *)
Definition endpoint (cam : camera) (webrtcBase : string) : string :=
  webrtcBase +:+ "/" +:+ or_str (stream_path cam) (id cam) +:+ "/whep".

(** The state after an effect run that started a bind cycle. *)
Definition bound (url : string) (d : option (string * string)) (t : tile)
    : tile :=
  set_effect (Some (length (cycles t))) d
    (set_cycles (cycles t ++ [mkCycle true url true AwaitOffer])
       (setError "" (setConnecting true t))).

Definition rejected (c : nat) (cy : cycle) (t : tile) : tile :=
  let t1 := upd_cycle c (at_stage Rejected) t in
  if c_active cy then setConnecting false (setError "WebRTC failed" t1) else t1.

Definition resolved (c : nat) (cy : cycle) (s : session) (t : tile) : tile :=
  let t1 := upd_cycle c (at_stage (Resolved s)) t in
  if c_active cy then setConnecting false (set_sessionRef (Some s) t1) else t1.

Inductive moves (t : tile) : tile -> Prop :=
| m_same : moves t t
| m_track (m : stream) : moves t (set_srcObject (Some m) t)
| m_unbind (d : option (string * string)) :
    moves t (set_effect None d (cleaned t))
| m_bind (url : string) (d : option (string * string)) :
    unmounted t = false ->
    moves t (bound url d (cleaned t))
| m_unmount : moves t (set_unmounted (cleaned t))
| m_progress (c : nat) (cy : cycle) (st : stage) :
    cycles t !! c = Some cy ->
    awaiting (c_stage cy) = true ->
    awaiting st = true ->
    moves t (upd_cycle c (at_stage st) t)
| m_post (c : nat) (cy : cycle) (sdp : string) :
    cycles t !! c = Some cy ->
    c_stage cy = AwaitLocal sdp ->
    moves t (upd_cycle c (at_stage AwaitFetch)
               (fetch (mkRequest POST (c_url cy) sdp) t))
| m_reject (c : nat) (cy : cycle) :
    cycles t !! c = Some cy ->
    awaiting (c_stage cy) = true ->
    moves t (rejected c cy t)
| m_resolve (c : nat) (cy : cycle) (u : option string) :
    cycles t !! c = Some cy ->
    awaiting (c_stage cy) = true ->
    moves t (resolved c cy (mkSession c u) t).



(** What the view shows for the stage of the active cycle. *)
Definition shows (t : tile) (st : stage) : Prop :=
  match st with
  | Resolved s => sessionRef t = Some s /\ connecting t = false /\ error t = ""
  | Rejected => connecting t = false /\ error t = "WebRTC failed"
  | _ => connecting t = true /\ error t = ""
  end.

(** Sessions, closed connections and requests against the cycles. *)
Record wf0 (t : tile) : Prop := mkWf0 {
  w_session : forall s,
    sessionRef t = Some s -> stage_of t (s_pc s) = Some (Resolved s);
  w_closed : forall c cy,
    cycles t !! c = Some cy -> c_open cy = false ->
    exists s, c_stage cy = Resolved s;
  w_requests : forall q, In q (requests t) ->
    match q_method q with
    | POST => exists c cy, cycles t !! c = Some cy /\ q_url q = c_url cy
    | DELETE =>
        exists c s, stage_of t c = Some (Resolved s)
                    /\ s_url s = Some (q_url q)
    end
}.

(** What holds of every state a controller can reach. *)
Record wf (t : tile) : Prop := mkWf {
  wf_base : wf0 t;
  wf_active : forall c cy,
    cycles t !! c = Some cy -> c_active cy = true ->
    cleanup t = Some c /\ unmounted t = false /\ shows t (c_stage cy);
  wf_cleanup : forall c, cleanup t = Some c -> is_active t c = true
}.

End Moves.

(** * Properties *)

Section OnAnyPlatform.
Import Whep Moves Scenario.

(** Whatever the URL constructor of the platform answers. *)
Variable URL : string -> string -> option string.

Local Abbreviation session_url := (Whep.session_url URL).
Local Abbreviation resume := (Whep.resume URL).
Local Abbreviation handler := (Whep.handler URL).
Local Abbreviation step := (Whep.step URL).
Local Abbreviation run := (Whep.run URL).

(** ** Teardown *)

Section Teardown.

Lemma pc_closed_after_close (t : tile) (p : nat) :
  pc_is_open (upd_cycle p close t) p = false.
Proof.
  unfold pc_is_open, upd_cycle. cbn.
  rewrite list_lookup_alter_eq. destruct (cycles t !! p); reflexivity.
Qed.

Lemma teardown_returns (c : nat) (t : tile) :
  teardown c t = Returned tt (torn_down c t).
Proof.
  unfold teardown, torn_down.
  destruct t as [v [[p u]|] cn er cs cl d um rq]; act; [|reflexivity].
  destruct u as [[|a u]|]; reflexivity.
Qed.

Lemma torn_down_sessionRef (c : nat) (t : tile) :
  sessionRef (torn_down c t) = sessionRef t.
Proof.
  unfold torn_down. destruct (sessionRef t) as [s|] eqn:Hs; cbn; [|exact Hs].
  destruct (truthy_ostr (s_url s)); cbn; exact Hs.
Qed.

Lemma torn_down_closed (c : nat) (t : tile) (s : session) :
  sessionRef t = Some s -> pc_is_open (torn_down c t) (s_pc s) = false.
Proof.
  intros Hs. unfold torn_down. rewrite Hs. cbn.
  destruct (truthy_ostr (s_url s)); apply pc_closed_after_close.
Qed.

Lemma torn_down_inactive (c : nat) (t : tile) :
  is_active (torn_down c t) c = false.
Proof.
  unfold torn_down, is_active.
  destruct (sessionRef t) as [s|]; cbn.
  - assert (H : forall l : list cycle,
               match alter close (s_pc s) (alter deactivate c l) !! c with
               | Some cy => c_active cy | None => false end = false).
    { intros l. destruct (decide (s_pc s = c)) as [->|Hne].
      - rewrite !list_lookup_alter_eq. destruct (l !! c); reflexivity.
      - rewrite list_lookup_alter_ne by exact Hne.
        rewrite list_lookup_alter_eq. destruct (l !! c); reflexivity. }
    destruct (truthy_ostr (s_url s)); cbn; apply H.
  - rewrite list_lookup_alter_eq. destruct (cycles t !! c); reflexivity.
Qed.

End Teardown.

Section Lifecycle.

Lemma run_cleanup_returns (t : tile) :
  run_cleanup t
  = Returned tt (match cleanup t with Some c => torn_down c t | None => t end).
Proof.
  unfold run_cleanup. act. destruct (cleanup t); [apply teardown_returns | reflexivity].
Qed.

Lemma bind_effect_returns (cam : camera) (base : string) (t : tile) :
  exists cl t', bind_effect cam base t = Returned cl t'
                /\ sessionRef t' = sessionRef t
                /\ srcObject t' = srcObject t
                /\ requests t' = requests t
                /\ forall p, p < length (cycles t) -> cycles t' !! p = cycles t !! p.
Proof.
  unfold bind_effect, startWhep. destruct (truthy_str base); act.
  - do 2 eexists. split; [reflexivity|]. cbn. repeat split.
    intros p Hp. apply lookup_app_l. exact Hp.
  - do 2 eexists. split; [reflexivity|]. repeat split.
Qed.

Lemma unmount_returns (t : tile) :
  unmount t
  = Returned tt (set_unmounted
                   (match cleanup t with Some c => torn_down c t | None => t end)).
Proof.
  unfold unmount.
  cbv [mbind act_bind]. rewrite run_cleanup_returns. reflexivity.
Qed.

Lemma render_returns (cam : camera) (base : string) (t : tile) :
  exists t', render cam base t = Returned tt t'
             /\ sessionRef t' = sessionRef t.
Proof.
  unfold render. cbv [mbind act_bind get].
  destruct (bool_decide _); [eexists; split; reflexivity|].
  rewrite run_cleanup_returns.
  set (t1 := match cleanup t with Some c => torn_down c t | None => t end).
  assert (H1 : sessionRef t1 = sessionRef t).
  { subst t1. destruct (cleanup t); [apply torn_down_sessionRef | reflexivity]. }
  destruct (bind_effect_returns cam base t1) as (cl & t2 & -> & Hs & _).
  act. eexists; split; [reflexivity|]. cbn. congruence.
Qed.

End Lifecycle.

(** ** Negotiation *)

Section Negotiation.

Lemma stage_of_upd (t : tile) (c : nat) (s : stage) (cy : cycle) :
  cycles t !! c = Some cy ->
  stage_of (upd_cycle c (at_stage s) t) c = Some s.
Proof.
  intros H. unfold stage_of, upd_cycle. cbn.
  rewrite list_lookup_alter_eq, H. reflexivity.
Qed.

Lemma is_active_upd_stage (t : tile) (c : nat) (s : stage) (cy : cycle) :
  cycles t !! c = Some cy ->
  is_active (upd_cycle c (at_stage s) t) c = c_active cy.
Proof.
  intros H. unfold is_active, upd_cycle. cbn.
  rewrite list_lookup_alter_eq, H. reflexivity.
Qed.

(** The [.catch] branch, in closed form. *)
Lemma reject_returns (t : tile) (c : nat) (cy : cycle) :
  cycles t !! c = Some cy ->
  reject c t
  = Returned tt
      (let t1 := upd_cycle c (at_stage Rejected) t in
       if c_active cy then setConnecting false (setError "WebRTC failed" t1)
       else t1).
Proof.
  intros H. unfold reject, on_rejected. act.
  rewrite (is_active_upd_stage t c Rejected cy H).
  destruct (c_active cy); reflexivity.
Qed.

(** The [.then] branch, in closed form. *)
Lemma resolve_returns (t : tile) (c : nat) (cy : cycle) (s : session) :
  cycles t !! c = Some cy ->
  (modify (upd_cycle c (at_stage (Resolved s)));; on_resolved c s) t
  = Returned tt
      (let t1 := upd_cycle c (at_stage (Resolved s)) t in
       if c_active cy then setConnecting false (set_sessionRef (Some s) t1)
       else t1).
Proof.
  intros H. unfold on_resolved. act.
  rewrite (is_active_upd_stage t c (Resolved s) cy H).
  destruct (c_active cy); reflexivity.
Qed.

(** A rejection at any suspension point ends the call rejected. *)
Lemma settle_reject (t : tile) (c : nat) (cy : cycle) :
  cycles t !! c = Some cy ->
  awaiting (c_stage cy) = true ->
  step t (Settle c Reject) = Some (reject c t).
Proof.
  intros H Ha. unfold Whep.step, Whep.handler. rewrite H.
  unfold Whep.resume. destruct (c_stage cy); try discriminate Ha; reflexivity.
Qed.

(** The call resolves only from its last suspension point, when the remote
    description was accepted and the locator could be built. *)
Lemma resolved_only_at_end (t t' : tile) (c : nat) (cy : cycle) (r : reply)
    (s : session) :
  cycles t !! c = Some cy ->
  step t (Settle c r) = Some (Returned tt t') ->
  stage_of t' c = Some (Resolved s) ->
  exists res answer,
    c_stage cy = AwaitRemote res answer
    /\ r = Fulfil P_unit
    /\ session_url (r_location res) (c_url cy) = Some (s_url s)
    /\ s_pc s = c.
Proof.
  intros H Hstep Hst. unfold Whep.step, Whep.handler in Hstep. rewrite H in Hstep.
  assert (Hrej : forall t0, reject c t = Returned tt t0 ->
                            stage_of t0 c = Some (Resolved s) -> False).
  { intros t0 Hr Hs. rewrite (reject_returns t c cy H) in Hr.
    injection Hr as <-. cbn in Hs.
    assert (Hk : stage_of (upd_cycle c (at_stage Rejected) t) c = Some Rejected)
      by (eapply stage_of_upd; eassumption).
    destruct (c_active cy); cbn in Hs; unfold stage_of in *; cbn in *;
      rewrite Hk in Hs; discriminate. }
  assert (Hmove : forall st t0,
             st <> Resolved s ->
             stage_of (upd_cycle c (at_stage st) t0) c = Some (Resolved s) ->
             cycles t0 !! c = Some cy -> False).
  { intros st t0 Hne Hs Hc. erewrite stage_of_upd in Hs by eassumption.
    congruence. }
  unfold Whep.resume in Hstep.
  destruct (c_stage cy) eqn:Hcs; destruct r as [[sdp| |res0|body]|];
    try discriminate Hstep;
    try (injection Hstep as Hstep; exfalso; eapply Hrej; eassumption).
  - injection Hstep as Hstep. revert Hstep. act. intros [= <-].
    exfalso. eapply (Hmove (AwaitLocal sdp) t); [discriminate|exact Hst|exact H].
  - injection Hstep as Hstep. revert Hstep. act. intros [= <-].
    exfalso.
    eapply (Hmove AwaitFetch (fetch (mkRequest POST (c_url cy) offer) t));
      [discriminate|exact Hst|exact H].
  - injection Hstep as Hstep. revert Hstep. act. intros [= <-].
    exfalso. eapply (Hmove (AwaitText res0) t); [discriminate|exact Hst|exact H].
  - injection Hstep as Hstep. revert Hstep. act. intros [= <-].
    exfalso.
    eapply (Hmove (AwaitRemote res body) t); [discriminate|exact Hst|exact H].
  - injection Hstep as Hstep.
    destruct (session_url (r_location res) (c_url cy)) as [u|] eqn:Hu.
    + rewrite (resolve_returns t c cy _ H) in Hstep. injection Hstep as <-.
      assert (Hk : stage_of (upd_cycle c (at_stage (Resolved (mkSession c u))) t) c
                   = Some (Resolved (mkSession c u)))
        by (eapply stage_of_upd; eassumption).
      assert (Hs' : Some (Resolved (mkSession c u)) = Some (Resolved s)).
      { rewrite <- Hk, <- Hst. cbn. destruct (c_active cy); reflexivity. }
      injection Hs' as <-. exists res, answer. cbn. rewrite Hu.
      repeat split; reflexivity.
    + exfalso; eapply Hrej; eassumption.
Qed.

End Negotiation.

(** ** Connections nobody closes *)

Section Leak.

Lemma torn_down_lookup (c p : nat) (t : tile) :
  (forall s, sessionRef t = Some s -> s_pc s <> p) ->
  cycles (torn_down c t) !! p
  = if decide (c = p) then deactivate <$> cycles t !! p else cycles t !! p.
Proof.
  intros Hs. unfold torn_down.
  destruct (sessionRef t) as [s|] eqn:Href.
  - assert (Hne : s_pc s <> p) by (apply Hs; reflexivity).
    assert (H : cycles (upd_cycle (s_pc s) close (upd_cycle c deactivate t)) !! p
                = if decide (c = p) then deactivate <$> cycles t !! p
                  else cycles t !! p).
    { cbn. rewrite list_lookup_alter_ne by exact Hne.
      rewrite list_lookup_alter. destruct (decide (c = p)) as [->|]; reflexivity. }
    destruct (truthy_ostr (s_url s)); exact H.
  - cbn. rewrite list_lookup_alter.
    destruct (decide (c = p)) as [->|]; reflexivity.
Qed.

(** The cleanup closes nothing but the referenced connection. *)
Lemma leaked_torn_down (c p : nat) (t : tile) :
  leaked t p -> leaked (torn_down c t) p.
Proof.
  intros (cy & Hp & Ho & Hl & Hs).
  pose proof (torn_down_lookup c p t Hs) as Hk. rewrite Hp in Hk.
  destruct (decide (c = p)).
  - exists (deactivate cy). split; [exact Hk|]. split; [exact Ho|].
    split; [left; reflexivity|].
    rewrite torn_down_sessionRef. exact Hs.
  - exists cy. split; [exact Hk|]. split; [exact Ho|]. split; [exact Hl|].
    rewrite torn_down_sessionRef. exact Hs.
Qed.

Lemma leaked_cleaned (p : nat) (t : tile) :
  leaked t p ->
  leaked (match cleanup t with Some c => torn_down c t | None => t end) p.
Proof.
  intros H. destruct (cleanup t); [apply leaked_torn_down|]; exact H.
Qed.

(** What a settled promise can do to the cycles and to the reference. *)
Lemma settle_effect (t t' : tile) (c : nat) (cy : cycle) (r : reply)
    (h : Act unit) :
  cycles t !! c = Some cy ->
  resume c cy r = Some h ->
  h t = Returned tt t' ->
  awaiting (c_stage cy) = true
  /\ (exists st, cycles t' = alter (at_stage st) c (cycles t))
  /\ (sessionRef t' = sessionRef t
      \/ c_active cy = true /\ exists u, sessionRef t' = Some (mkSession c u)).
Proof.
  intros H Hres Hh.
  assert (Hrej : reject c t = Returned tt t' ->
                 (exists st, cycles t' = alter (at_stage st) c (cycles t))
                 /\ (sessionRef t' = sessionRef t
                     \/ c_active cy = true
                        /\ exists u, sessionRef t' = Some (mkSession c u))).
  { rewrite (reject_returns t c cy H). intros [= <-]. cbn.
    destruct (c_active cy); (split; [exists Rejected; reflexivity|left; reflexivity]). }
  unfold Whep.resume in Hres.
  destruct (c_stage cy) eqn:Hst; destruct r as [[sdp| |res0|body]|];
    try discriminate Hres; injection Hres as <-;
    (split; [reflexivity|]); try (apply Hrej; exact Hh).
  - revert Hh. act. intros [= <-]. cbn.
    split; [eexists; reflexivity|left; reflexivity].
  - revert Hh. act. intros [= <-]. cbn.
    split; [eexists; reflexivity|left; reflexivity].
  - revert Hh. act. intros [= <-]. cbn.
    split; [eexists; reflexivity|left; reflexivity].
  - revert Hh. act. intros [= <-]. cbn.
    split; [eexists; reflexivity|left; reflexivity].
  - destruct (session_url (r_location res) (c_url cy)) as [u|];
      [|apply Hrej; exact Hh].
    rewrite (resolve_returns t c cy _ H) in Hh. injection Hh as <-. cbn.
    destruct (c_active cy); cbn.
    + split; [eexists; reflexivity|]. right. split; [reflexivity|].
      exists u. reflexivity.
    + split; [eexists; reflexivity|left; reflexivity].
Qed.

(** No event closes a leaked connection or makes the controller reference
    it. *)
Lemma leaked_step (t t' : tile) (e : event) (p : nat) :
  step t e = Some (Returned tt t') -> leaked t p -> leaked t' p.
Proof.
  intros Hstep Hleak. unfold Whep.step, Whep.handler in Hstep.
  destruct e as [cam base| |c r|c streams|i ok].
  - destruct (unmounted t); [discriminate|]. injection Hstep as Hstep.
    revert Hstep. unfold render. cbv [mbind act_bind get].
    destruct (bool_decide _); [intros [= <-]; exact Hleak|].
    rewrite run_cleanup_returns.
    pose proof (leaked_cleaned p t Hleak) as H1.
    set (t1 := match cleanup t with Some c => torn_down c t | None => t end) in *.
    destruct (bind_effect_returns cam base t1) as (cl & t2 & -> & Hs & _ & _ & Hc).
    act. intros [= <-].
    destruct H1 as (cy & Hp & Ho & Hl & Hr).
    exists cy. cbn. split.
    { rewrite Hc; [exact Hp|]. eapply lookup_lt_Some. exact Hp. }
    split; [exact Ho|]. split; [exact Hl|]. rewrite Hs. exact Hr.
  - destruct (unmounted t); [discriminate|].
    destruct (deps t); [|discriminate]. injection Hstep as Hstep.
    rewrite unmount_returns in Hstep. injection Hstep as <-.
    destruct (leaked_cleaned p t Hleak) as (cy & Hp & Ho & Hl & Hr).
    exists cy. repeat split; assumption.
  - destruct (cycles t !! c) as [cy0|] eqn:Hc0; [|discriminate].
    destruct (resume c cy0 r) as [h|] eqn:Hres; [|discriminate].
    injection Hstep as Hstep.
    destruct (settle_effect t t' c cy0 r h Hc0 Hres Hstep)
      as (Haw & [st Hcs] & Href).
    destruct Hleak as (cy & Hp & Ho & Hl & Hr).
    destruct (decide (c = p)) as [->|Hne].
    + rewrite Hp in Hc0. injection Hc0 as <-.
      destruct Hl as [Hl|Hl]; [|rewrite Hl in Haw; discriminate Haw].
      exists (at_stage st cy). rewrite Hcs, list_lookup_alter_eq, Hp.
      split; [reflexivity|]. split; [exact Ho|]. split; [left; exact Hl|].
      destruct Href as [->|[Hact _]]; [exact Hr|].
      rewrite Hl in Hact. discriminate Hact.
    + exists cy. rewrite Hcs, list_lookup_alter_ne by exact Hne.
      split; [exact Hp|]. split; [exact Ho|]. split; [exact Hl|].
      destruct Href as [->|[_ [u ->]]]; [exact Hr|].
      intros s [= <-]. exact Hne.
  - destruct (pc_is_open t c); [|discriminate]. injection Hstep as Hstep.
    revert Hstep. unfold ontrack. act.
    destruct streams as [|m rest]; [intros [= <-]; exact Hleak|].
    destruct (bool_decide _); intros [= <-]; exact Hleak.
  - destruct (requests t !! i) as [q|]; [|discriminate].
    destruct (is_delete q); [|discriminate].
    destruct ok; injection Hstep as <-; exact Hleak.
Qed.

(** A leaked connection stays open for the rest of the controller's life. *)
Lemma leaked_forever (es : list event) (t t' : tile) (p : nat) :
  run t es = Some t' -> leaked t p -> pc_is_open t' p = true /\ leaked t' p.
Proof.
  revert t. induction es as [|e es IH]; intros t; cbn.
  - intros [= <-] H. split; [|exact H].
    destruct H as (cy & Hp & Ho & _). unfold pc_is_open. rewrite Hp. exact Ho.
  - destruct (step t e) as [[[] t1|]|] eqn:He; try discriminate.
    intros Hrun Hleak. apply (IH t1 Hrun).
    eapply leaked_step; eassumption.
Qed.

(** A cycle that was unbound while its negotiation was in flight, or whose
    negotiation failed, has leaked its connection. *)
Lemma unbound_pending_leaks (c : nat) (t : tile) (cy : cycle) :
  cycles t !! c = Some cy ->
  c_open cy = true ->
  awaiting (c_stage cy) = true ->
  (forall s, sessionRef t = Some s -> s_pc s <> c) ->
  leaked (torn_down c t) c.
Proof.
  intros Hc Ho Ha Hs.
  exists (deactivate cy). rewrite (torn_down_lookup c c t Hs).
  rewrite decide_True by reflexivity. rewrite Hc.
  split; [reflexivity|]. split; [exact Ho|]. split; [left; reflexivity|].
  rewrite torn_down_sessionRef. exact Hs.
Qed.

End Leak.

(** ** The moves of the controller and what they keep *)

Section MovesOfStep.

Lemma bind_effect_cases (cam : camera) (base : string) (t : tile) :
  bind_effect cam base t
  = if truthy_str base
    then Returned (Some (length (cycles t)))
           (set_cycles (cycles t ++ [mkCycle true (endpoint cam base) true AwaitOffer])
              (setError "" (setConnecting true t)))
    else Returned None t.
Proof.
  unfold bind_effect, startWhep. destruct (truthy_str base); reflexivity.
Qed.

(** Every step of the machine is one of the moves. *)
Lemma step_moves (t t' : tile) (e : event) :
  step t e = Some (Returned tt t') -> moves t t'.
Proof.
  unfold Whep.step, Whep.handler.
  destruct e as [cam base| |c r|c streams|i ok].
  - destruct (unmounted t) eqn:Hum; [discriminate|]. intros [= Hr]. revert Hr.
    unfold render. cbv [mbind act_bind get].
    destruct (bool_decide _); [intros [= <-]; constructor|].
    rewrite run_cleanup_returns. fold (cleaned t).
    rewrite bind_effect_cases. destruct (truthy_str base); act; intros [= <-].
    + apply (m_bind t (endpoint cam base)). exact Hum.
    + apply m_unbind.
  - destruct (unmounted t); [discriminate|].
    destruct (deps t); [|discriminate]. intros [= Hr].
    rewrite unmount_returns in Hr. injection Hr as <-. apply m_unmount.
  - destruct (cycles t !! c) as [cy|] eqn:Hc; [|discriminate].
    unfold Whep.resume.
    destruct (c_stage cy) eqn:Hst; destruct r as [[sdp| |res0|body]|];
      try discriminate;
      try (intros [= Hr]; rewrite (reject_returns t c cy Hc) in Hr;
           injection Hr as <-; apply m_reject; [exact Hc|rewrite Hst; reflexivity]).
    + act. intros [= <-].
      apply (m_progress t c cy (AwaitLocal sdp)); [exact Hc|rewrite Hst|]; reflexivity.
    + act. intros [= <-]. apply (m_post t c cy offer); assumption.
    + act. intros [= <-].
      apply (m_progress t c cy (AwaitText res0)); [exact Hc|rewrite Hst|]; reflexivity.
    + act. intros [= <-].
      apply (m_progress t c cy (AwaitRemote res body));
        [exact Hc|rewrite Hst|]; reflexivity.
    + destruct (session_url (r_location res) (c_url cy)) as [u|].
      * intros [= Hr]. rewrite (resolve_returns t c cy _ Hc) in Hr.
        injection Hr as <-. apply m_resolve; [exact Hc|rewrite Hst; reflexivity].
      * intros [= Hr]. rewrite (reject_returns t c cy Hc) in Hr.
        injection Hr as <-. apply m_reject; [exact Hc|rewrite Hst; reflexivity].
  - destruct (pc_is_open t c); [|discriminate]. intros [= Hr]. revert Hr.
    unfold ontrack. act.
    destruct streams as [|m rest]; [intros [= <-]; constructor|].
    destruct (bool_decide _); intros [= <-]; constructor.
  - destruct (requests t !! i) as [q|]; [|discriminate].
    destruct (is_delete q); [|discriminate].
    destruct ok; intros [= <-]; constructor.
Qed.

End MovesOfStep.

Section CleanedFacts.

Lemma alter_lookup_inv (f : cycle -> cycle) (c p : nat) (l : list cycle)
    (cy' : cycle) :
  alter f c l !! p = Some cy' ->
  exists cy,
    l !! p = Some cy /\ ((p <> c /\ cy' = cy) \/ (p = c /\ cy' = f cy)).
Proof.
  rewrite list_lookup_alter. destruct (decide (c = p)) as [->|Hne].
  - destruct (l !! p) as [cy|]; [|discriminate]. intros [= <-].
    exists cy. split; [reflexivity|]. right. split; reflexivity.
  - intros H. exists cy'. split; [exact H|left].
    split; [congruence|reflexivity].
Qed.

Lemma alter_lookup_fwd (f : cycle -> cycle) (c p : nat) (l : list cycle)
    (cy : cycle) :
  l !! p = Some cy ->
  alter f c l !! p = Some (if decide (c = p) then f cy else cy).
Proof.
  intros H. rewrite list_lookup_alter.
  destruct (decide (c = p)) as [->|Hne]; rewrite H; reflexivity.
Qed.

Lemma torn_down_cycles (c : nat) (t : tile) :
  cycles (torn_down c t)
  = match sessionRef t with
    | Some s => alter close (s_pc s) (alter deactivate c (cycles t))
    | None => alter deactivate c (cycles t)
    end.
Proof.
  unfold torn_down. destruct (sessionRef t) as [s|]; [|reflexivity].
  destruct (truthy_ostr (s_url s)); reflexivity.
Qed.

Lemma torn_down_requests (c : nat) (t : tile) :
  requests (torn_down c t)
  = (requests t ++
     match sessionRef t with
     | Some s =>
         if truthy_ostr (s_url s)
         then [mkRequest DELETE (url_arg (s_url s)) ""]
         else []
     | None => []
     end)%list.
Proof.
  unfold torn_down. destruct (sessionRef t) as [s|]; cbn.
  - destruct (truthy_ostr (s_url s)); cbn; [reflexivity|].
    symmetry; apply app_nil_r.
  - symmetry; apply app_nil_r.
Qed.

Lemma torn_down_view (c : nat) (t : tile) :
  srcObject (torn_down c t) = srcObject t
  /\ connecting (torn_down c t) = connecting t
  /\ error (torn_down c t) = error t
  /\ unmounted (torn_down c t) = unmounted t.
Proof.
  unfold torn_down. destruct (sessionRef t) as [s|]; [|repeat split].
  destruct (truthy_ostr (s_url s)); repeat split.
Qed.

Lemma cleaned_view (t : tile) :
  srcObject (cleaned t) = srcObject t
  /\ sessionRef (cleaned t) = sessionRef t
  /\ connecting (cleaned t) = connecting t
  /\ error (cleaned t) = error t
  /\ unmounted (cleaned t) = unmounted t.
Proof.
  unfold cleaned. destruct (cleanup t) as [c|]; [|repeat split].
  destruct (torn_down_view c t) as (H1 & H2 & H3 & H4).
  pose proof (torn_down_sessionRef c t). repeat split; assumption.
Qed.

(** A cycle after the cleanup, against the same cycle before it. *)
Lemma cleaned_lookup (t : tile) (p : nat) (cy' : cycle) :
  cycles (cleaned t) !! p = Some cy' ->
  exists cy,
    cycles t !! p = Some cy
    /\ c_url cy' = c_url cy
    /\ c_stage cy' = c_stage cy
    /\ (c_active cy' = true -> c_active cy = true /\ cleanup t <> Some p)
    /\ (c_open cy' = false ->
        c_open cy = false \/ exists s, sessionRef t = Some s /\ s_pc s = p).
Proof.
  unfold cleaned. destruct (cleanup t) as [c|] eqn:Hcl.
  - rewrite torn_down_cycles.
    assert (Hd : forall cy1, alter deactivate c (cycles t) !! p = Some cy1 ->
              exists cy, cycles t !! p = Some cy
                /\ c_url cy1 = c_url cy /\ c_stage cy1 = c_stage cy
                /\ c_open cy1 = c_open cy
                /\ (c_active cy1 = true -> c_active cy = true /\ Some c <> Some p)).
    { intros cy1 H. apply alter_lookup_inv in H as (cy & Hp & [[Hne ->]|[-> ->]]).
      - exists cy. split; [exact Hp|]. do 3 (split; [reflexivity|]).
        intros Ha. split; [exact Ha|]. intros [= ->]. apply Hne. reflexivity.
      - exists cy. split; [exact Hp|]. do 3 (split; [reflexivity|]).
        cbn. discriminate. }
    destruct (sessionRef t) as [s|] eqn:Hs.
    + intros H. apply alter_lookup_inv in H as (cy1 & Hp1 & Hc).
      destruct (Hd cy1 Hp1) as (cy & Hp & Hu & Hst & Ho & Ha).
      exists cy. split; [exact Hp|].
      destruct Hc as [[_ ->]|[-> ->]]; cbn.
      * split; [exact Hu|]. split; [exact Hst|]. split; [exact Ha|].
        intros H'. left. congruence.
      * split; [exact Hu|]. split; [exact Hst|]. split; [exact Ha|].
        intros _. right. exists s. split; reflexivity.
    + intros H. destruct (Hd cy' H) as (cy & Hp & Hu & Hst & Ho & Ha).
      exists cy. split; [exact Hp|].
      split; [exact Hu|]. split; [exact Hst|]. split; [exact Ha|].
      intros H'. left. congruence.
  - intros H. exists cy'. split; [exact H|].
    split; [reflexivity|]. split; [reflexivity|].
    split; [intros Ha; split; [exact Ha|discriminate]|].
    intros H'. left. exact H'.
Qed.

Lemma cleaned_lookup_fwd (t : tile) (p : nat) (cy : cycle) :
  cycles t !! p = Some cy ->
  exists cy', cycles (cleaned t) !! p = Some cy'
              /\ c_url cy' = c_url cy /\ c_stage cy' = c_stage cy.
Proof.
  intros Hp. unfold cleaned. destruct (cleanup t) as [c|].
  - rewrite torn_down_cycles.
    pose proof (alter_lookup_fwd deactivate c p _ cy Hp) as H1.
    destruct (sessionRef t) as [s|].
    + pose proof (alter_lookup_fwd close (s_pc s) p _ _ H1) as H2.
      eexists. split; [exact H2|].
      destruct (decide (s_pc s = p)), (decide (c = p)); split; reflexivity.
    + eexists. split; [exact H1|].
      destruct (decide (c = p)); split; reflexivity.
  - exists cy. repeat split. exact Hp.
Qed.

Lemma cleaned_stage_of (t : tile) (p : nat) :
  stage_of (cleaned t) p = stage_of t p.
Proof.
  unfold stage_of. destruct (cycles t !! p) as [cy|] eqn:Hp.
  - destruct (cleaned_lookup_fwd t p cy Hp) as (cy' & -> & _ & Hst).
    cbn. rewrite Hst. reflexivity.
  - destruct (cycles (cleaned t) !! p) as [cy'|] eqn:Hp'; [|reflexivity].
    destruct (cleaned_lookup t p cy' Hp') as (cy & Hq & _). congruence.
Qed.

Lemma cleaned_requests (t : tile) (q : request) :
  In q (requests (cleaned t)) ->
  In q (requests t)
  \/ (q_method q = DELETE
      /\ exists s, sessionRef t = Some s /\ s_url s = Some (q_url q)).
Proof.
  unfold cleaned. destruct (cleanup t) as [c|]; [|left; assumption].
  rewrite torn_down_requests. intros H. apply in_app_or in H as [H|H].
  - left. exact H.
  - destruct (sessionRef t) as [s|]; [|destruct H].
    destruct (s_url s) as [u|] eqn:Hu; cbn in H; [|destruct H].
    destruct (truthy_str u); [|destruct H].
    destruct H as [<-|[]]. right. split; [reflexivity|].
    exists s. split; [reflexivity|]. exact Hu.
Qed.

End CleanedFacts.

Section Invariant.

Lemma wf_cleaned_inactive (t : tile) (p : nat) (cy' : cycle) :
  wf t -> cycles (cleaned t) !! p = Some cy' -> c_active cy' = false.
Proof.
  intros Hwf Hp. destruct (c_active cy') eqn:Ha; [|reflexivity].
  destruct (cleaned_lookup t p cy' Hp) as (cy & Hq & _ & _ & Hact & _).
  destruct (Hact Ha) as [Ha0 Hne].
  destruct (wf_active t Hwf p cy Hq Ha0) as [Hcl _]. contradiction.
Qed.

Lemma wf0_cleaned (t : tile) : wf0 t -> wf0 (cleaned t).
Proof.
  intros [Hs Hc Hr].
  destruct (cleaned_view t) as (_ & Href & _).
  split.
  - intros s H. rewrite Href in H. rewrite cleaned_stage_of. apply Hs, H.
  - intros p cy' Hp Ho.
    destruct (cleaned_lookup t p cy' Hp) as (cy & Hq & _ & Hst & _ & Hopen).
    rewrite Hst. destruct (Hopen Ho) as [Ho'|(s & Hsr & <-)].
    + eapply Hc; eassumption.
    + exists s. pose proof (Hs s Hsr) as H. unfold stage_of in H.
      rewrite Hq in H. injection H as H. exact H.
  - intros q Hq. destruct (cleaned_requests t q Hq) as [Hold|[Hm (s & Hsr & Hu)]].
    + specialize (Hr q Hold). destruct (q_method q).
      * destruct Hr as (c & cy & Hp & Hurl).
        destruct (cleaned_lookup_fwd t c cy Hp) as (cy' & Hp' & Hu' & _).
        exists c, cy'. split; [exact Hp'|congruence].
      * destruct Hr as (c & s & Hst & Hu). exists c, s.
        rewrite cleaned_stage_of. split; assumption.
    + rewrite Hm. exists (s_pc s), s. rewrite cleaned_stage_of.
      split; [apply Hs, Hsr|exact Hu].
Qed.

(** [wf0] looks at the reference, the cycles and the requests only. *)
Lemma wf0_ext (t t' : tile) :
  wf0 t ->
  sessionRef t' = sessionRef t ->
  cycles t' = cycles t ->
  requests t' = requests t ->
  wf0 t'.
Proof.
  intros [Hs Hc Hr] E1 E2 E3. split; unfold stage_of in *.
  - intros s. rewrite E1, E2. apply Hs.
  - intros c cy. rewrite E2. apply Hc.
  - intros q. rewrite E3, E2. apply Hr.
Qed.

Lemma lookup_snoc_inv (l : list cycle) (x y : cycle) (p : nat) :
  (l ++ [x])%list !! p = Some y ->
  l !! p = Some y \/ (p = length l /\ y = x).
Proof.
  intros H. apply lookup_app_Some in H as [H|[Hle H]]; [left; exact H|].
  right. destruct (p - length l) as [|k] eqn:Hk; cbn in H; [|discriminate].
  injection H as <-. split; [lia|reflexivity].
Qed.

Lemma wf0_snoc (t t' : tile) (x : cycle) :
  wf0 t ->
  c_open x = true ->
  sessionRef t' = sessionRef t ->
  cycles t' = (cycles t ++ [x])%list ->
  requests t' = requests t ->
  wf0 t'.
Proof.
  intros [Hs Hc Hr] Hx E1 E2 E3.
  assert (Hfwd : forall p cy, cycles t !! p = Some cy -> cycles t' !! p = Some cy).
  { intros p cy Hp. rewrite E2. rewrite lookup_app_l; [exact Hp|].
    eapply lookup_lt_Some. exact Hp. }
  assert (Hst : forall p st, stage_of t p = Some st -> stage_of t' p = Some st).
  { intros p st. unfold stage_of.
    destruct (cycles t !! p) as [cy|] eqn:Hp; [|discriminate].
    rewrite (Hfwd p cy Hp). intros H. exact H. }
  split.
  - intros s H. rewrite E1 in H. apply Hst, Hs, H.
  - intros p cy Hp Ho. rewrite E2 in Hp.
    apply lookup_snoc_inv in Hp as [Hp|[_ ->]].
    + eapply Hc; eassumption.
    + rewrite Hx in Ho. discriminate.
  - intros q Hq. rewrite E3 in Hq. specialize (Hr q Hq).
    destruct (q_method q).
    + destruct Hr as (c & cy & Hp & Hu). exists c, cy.
      split; [apply Hfwd, Hp|exact Hu].
    + destruct Hr as (c & s & Hp & Hu). exists c, s.
      split; [apply Hst, Hp|exact Hu].
Qed.

(** A cycle in flight moves to another stage. *)
Lemma wf0_at_stage (t t' : tile) (c : nat) (cy : cycle) (st : stage) :
  wf0 t ->
  cycles t !! c = Some cy ->
  awaiting (c_stage cy) = true ->
  cycles t' = alter (at_stage st) c (cycles t) ->
  (sessionRef t' = sessionRef t
   \/ exists u, st = Resolved (mkSession c u)
                /\ sessionRef t' = Some (mkSession c u)) ->
  (forall q, In q (requests t') ->
             In q (requests t) \/ (q_method q = POST /\ q_url q = c_url cy)) ->
  wf0 t'.
Proof.
  intros [Hs Hc Hr] Hp Haw E2 E1 E3.
  assert (Hother : forall p st0,
             stage_of t p = Some (Resolved st0) ->
             stage_of t' p = Some (Resolved st0)).
  { intros p st0. unfold stage_of. rewrite E2.
    destruct (cycles t !! p) as [cy0|] eqn:Hp0; [|discriminate].
    rewrite (alter_lookup_fwd _ c p _ cy0 Hp0).
    destruct (decide (c = p)) as [->|]; [|intros H; exact H].
    rewrite Hp in Hp0. injection Hp0 as <-. cbn. intros [= H].
    rewrite H in Haw. discriminate Haw. }
  assert (Hself : stage_of t' c = Some st).
  { unfold stage_of. rewrite E2, list_lookup_alter_eq, Hp. reflexivity. }
  split.
  - intros s H. destruct E1 as [E1|(u & -> & E1)].
    + rewrite E1 in H. apply Hother, Hs, H.
    + rewrite E1 in H. injection H as <-. exact Hself.
  - intros p cy' Hp' Ho. rewrite E2 in Hp'.
    apply alter_lookup_inv in Hp' as (cy0 & Hp0 & [[_ ->]|[-> ->]]).
    + eapply Hc; eassumption.
    + rewrite Hp in Hp0. injection Hp0 as <-. cbn in Ho.
      destruct (Hc c cy Hp Ho) as [s Hst]. rewrite Hst in Haw.
      discriminate Haw.
  - intros q Hq. destruct (E3 q Hq) as [Hold|[Hm Hu]].
    + specialize (Hr q Hold). destruct (q_method q).
      * destruct Hr as (p & cy0 & Hp0 & Hu). rewrite E2.
        eexists p, _. split; [apply (alter_lookup_fwd _ c p _ cy0 Hp0)|].
        destruct (decide (c = p)); exact Hu.
      * destruct Hr as (p & s & Hst & Hu). exists p, s.
        split; [apply Hother, Hst|exact Hu].
    + rewrite Hm. exists c, (at_stage st cy).
      split; [rewrite E2, list_lookup_alter_eq, Hp; reflexivity|exact Hu].
Qed.

Lemma shows_ext (t t' : tile) (st : stage) :
  sessionRef t' = sessionRef t ->
  connecting t' = connecting t ->
  error t' = error t ->
  shows t st -> shows t' st.
Proof.
  intros E1 E2 E3. unfold shows. rewrite E1, E2, E3. intros H. exact H.
Qed.

Lemma shows_awaiting (t : tile) (st1 st2 : stage) :
  awaiting st1 = true -> awaiting st2 = true -> shows t st1 -> shows t st2.
Proof.
  destruct st1; try discriminate; destruct st2; try discriminate;
    intros _ _ H; exact H.
Qed.

Lemma shows_awaiting_view (t : tile) (st : stage) :
  awaiting st = true -> shows t st -> connecting t = true /\ error t = "".
Proof. destruct st; try discriminate; intros _ H; exact H. Qed.

Lemma is_active_at_stage (l : list cycle) (c p : nat) (st : stage) :
  match alter (at_stage st) c l !! p with
  | Some cy => c_active cy
  | None => false
  end
  = match l !! p with Some cy => c_active cy | None => false end.
Proof.
  rewrite list_lookup_alter. destruct (decide (c = p)) as [->|]; [|reflexivity].
  destruct (l !! p); reflexivity.
Qed.

(** The active part of [wf] when one cycle in flight changes stage and the
    rest of the effect's bookkeeping stays. *)
Lemma wf_active_at_stage (t t' : tile) (c : nat) (cy : cycle) (st : stage) :
  wf t ->
  cycles t !! c = Some cy ->
  cycles t' = alter (at_stage st) c (cycles t) ->
  cleanup t' = cleanup t ->
  unmounted t' = unmounted t ->
  (c_active cy = true -> shows t' st) ->
  (c_active cy = false ->
   sessionRef t' = sessionRef t /\ connecting t' = connecting t
   /\ error t' = error t) ->
  (forall c0 cy0,
      cycles t' !! c0 = Some cy0 -> c_active cy0 = true ->
      cleanup t' = Some c0 /\ unmounted t' = false /\ shows t' (c_stage cy0))
  /\ (forall c0, cleanup t' = Some c0 -> is_active t' c0 = true).
Proof.
  intros Hwf Hp E2 Ecl Eum Hact Hina. split.
  - intros p cy' Hp' Ha. rewrite E2 in Hp'.
    apply alter_lookup_inv in Hp' as (cy0 & Hp0 & Hcase).
    assert (Ha0 : c_active cy0 = true).
    { destruct Hcase as [[_ ->]|[_ ->]]; exact Ha. }
    destruct (wf_active t Hwf p cy0 Hp0 Ha0) as (Hcl & Hum & Hsh).
    rewrite Ecl, Eum. split; [exact Hcl|]. split; [exact Hum|].
    destruct Hcase as [[Hne ->]|[-> ->]].
    + destruct (c_active cy) eqn:Hc.
      * destruct (wf_active t Hwf c cy Hp Hc) as (Hcl' & _).
        rewrite Hcl in Hcl'. injection Hcl' as ->. contradiction.
      * destruct (Hina eq_refl) as (E1 & E3 & E4).
        eapply shows_ext; eassumption.
    + rewrite Hp in Hp0. injection Hp0 as <-. cbn. apply Hact. exact Ha0.
  - intros c0 H. rewrite Ecl in H. pose proof (wf_cleanup t Hwf c0 H) as Hk.
    unfold is_active in *. rewrite E2, is_active_at_stage. exact Hk.
Qed.

(** Every move keeps the invariant. *)
Lemma moves_wf (t t' : tile) : wf t -> moves t t' -> wf t'.
Proof.
  intros Hwf Hm. pose proof (wf_base t Hwf) as Hb.
  destruct (cleaned_view t) as (Ev & Es & Ec & Ee & Eu).
  destruct Hm as [|m|d|url d Hum| |c cy st Hp Haw Hst|c cy sdp Hp Hst|c cy Hp Haw
                  |c cy u Hp Haw].
  - exact Hwf.
  - split.
    + eapply wf0_ext; [exact Hb|reflexivity..].
    + intros c cy Hp Ha. destruct (wf_active t Hwf c cy Hp Ha) as (H1 & H2 & H3).
      split; [exact H1|]. split; [exact H2|].
      eapply shows_ext; [..|exact H3]; reflexivity.
    + exact (wf_cleanup t Hwf).
  - split.
    + eapply wf0_ext; [apply wf0_cleaned; exact Hb|reflexivity..].
    + intros c cy Hp Ha. cbn in Hp.
      rewrite (wf_cleaned_inactive t c cy Hwf Hp) in Ha. discriminate.
    + cbn. discriminate.
  - split.
    + eapply (wf0_snoc (cleaned t)); [apply wf0_cleaned; exact Hb| |reflexivity..].
      reflexivity.
    + intros c cy Hp Ha. cbn in Hp.
      apply lookup_snoc_inv in Hp as [Hp|[-> ->]].
      * rewrite (wf_cleaned_inactive t c cy Hwf Hp) in Ha. discriminate.
      * cbn. split; [reflexivity|]. split; [congruence|]. split; reflexivity.
    + cbn. intros c [= <-]. unfold is_active. cbn.
      rewrite list_lookup_middle by reflexivity. reflexivity.
  - split.
    + eapply wf0_ext; [apply wf0_cleaned; exact Hb|reflexivity..].
    + intros c cy Hp Ha. cbn in Hp.
      rewrite (wf_cleaned_inactive t c cy Hwf Hp) in Ha. discriminate.
    + cbn. discriminate.
  - destruct (wf_active_at_stage t (upd_cycle c (at_stage st) t) c cy st Hwf Hp)
      as [H1 H2]; try reflexivity.
    + intros Ha. destruct (wf_active t Hwf c cy Hp Ha) as (_ & _ & Hsh).
      eapply shows_ext; [..|eapply shows_awaiting; [exact Haw|exact Hst|exact Hsh]];
        reflexivity.
    + intros _. repeat split.
    + split; [|exact H1|exact H2].
      eapply (wf0_at_stage t _ c cy st); [exact Hb|exact Hp|exact Haw|reflexivity| |].
      * left. reflexivity.
      * intros q Hq. left. exact Hq.
  - assert (Haw : awaiting (c_stage cy) = true) by (rewrite Hst; reflexivity).
    destruct (wf_active_at_stage t
                (upd_cycle c (at_stage AwaitFetch)
                   (fetch (mkRequest POST (c_url cy) sdp) t))
                c cy AwaitFetch Hwf Hp) as [H1 H2]; try reflexivity.
    + intros Ha. destruct (wf_active t Hwf c cy Hp Ha) as (_ & _ & Hsh).
      eapply shows_ext;
        [..|eapply (shows_awaiting t _ AwaitFetch); [exact Haw|reflexivity|exact Hsh]];
        reflexivity.
    + intros _. repeat split.
    + split; [|exact H1|exact H2].
      eapply (wf0_at_stage t _ c cy AwaitFetch);
        [exact Hb|exact Hp|exact Haw|reflexivity| |].
      * left. reflexivity.
      * cbn. intros q Hq. apply in_app_or in Hq as [Hq|[<-|[]]].
        -- left. exact Hq.
        -- right. split; reflexivity.
  - unfold rejected. destruct (c_active cy) eqn:Ha.
    + destruct (wf_active_at_stage t
                  (setConnecting false
                     (setError "WebRTC failed" (upd_cycle c (at_stage Rejected) t)))
                  c cy Rejected Hwf Hp) as [H1 H2]; try reflexivity.
      * intros _. split; reflexivity.
      * rewrite Ha. discriminate.
      * split; [|exact H1|exact H2].
        eapply (wf0_at_stage t _ c cy Rejected);
          [exact Hb|exact Hp|exact Haw|reflexivity| |].
        -- left. reflexivity.
        -- intros q Hq. left. exact Hq.
    + destruct (wf_active_at_stage t (upd_cycle c (at_stage Rejected) t)
                  c cy Rejected Hwf Hp) as [H1 H2]; try reflexivity.
      * rewrite Ha. discriminate.
      * intros _. repeat split.
      * split; [|exact H1|exact H2].
        eapply (wf0_at_stage t _ c cy Rejected);
          [exact Hb|exact Hp|exact Haw|reflexivity| |].
        -- left. reflexivity.
        -- intros q Hq. left. exact Hq.
  - unfold resolved. destruct (c_active cy) eqn:Ha.
    + destruct (wf_active_at_stage t
                  (setConnecting false
                     (set_sessionRef (Some (mkSession c u))
                        (upd_cycle c (at_stage (Resolved (mkSession c u))) t)))
                  c cy (Resolved (mkSession c u)) Hwf Hp) as [H1 H2];
        try reflexivity.
      * intros _. destruct (wf_active t Hwf c cy Hp Ha) as (_ & _ & Hsh).
        destruct (shows_awaiting_view t _ Haw Hsh) as [_ He].
        cbn. split; [reflexivity|]. split; [reflexivity|exact He].
      * rewrite Ha. discriminate.
      * split; [|exact H1|exact H2].
        eapply (wf0_at_stage t _ c cy (Resolved (mkSession c u)));
          [exact Hb|exact Hp|exact Haw|reflexivity| |].
        -- right. exists u. split; reflexivity.
        -- intros q Hq. left. exact Hq.
    + destruct (wf_active_at_stage t
                  (upd_cycle c (at_stage (Resolved (mkSession c u))) t)
                  c cy (Resolved (mkSession c u)) Hwf Hp) as [H1 H2];
        try reflexivity.
      * rewrite Ha. discriminate.
      * intros _. repeat split.
      * split; [|exact H1|exact H2].
        eapply (wf0_at_stage t _ c cy (Resolved (mkSession c u)));
          [exact Hb|exact Hp|exact Haw|reflexivity| |].
        -- left. reflexivity.
        -- intros q Hq. left. exact Hq.
Qed.

Lemma init_wf : wf init.
Proof.
  split; [split|..]; cbn.
  - discriminate.
  - intros c cy H. rewrite lookup_nil in H. discriminate.
  - intros q [].
  - intros c cy H. rewrite lookup_nil in H. discriminate.
  - discriminate.
Qed.

(** Every state of a run that starts from a fresh controller is
    well-formed. *)
Lemma run_wf (es : list event) (t t' : tile) :
  wf t -> run t es = Some t' -> wf t'.
Proof.
  revert t. induction es as [|e es IH]; intros t Hwf; cbn.
  - intros [= <-]. exact Hwf.
  - destruct (step t e) as [[[] t1|]|] eqn:He; try discriminate.
    intros Hrun. apply (IH t1); [|exact Hrun].
    eapply moves_wf; [exact Hwf|]. eapply step_moves. exact He.
Qed.

End Invariant.

(** The ways a settled promise can leave cycle [c]. *)
Lemma settle_cases (t t' : tile) (c : nat) (cy : cycle) (r : reply) :
  cycles t !! c = Some cy ->
  step t (Settle c r) = Some (Returned tt t') ->
  awaiting (c_stage cy) = true
  /\ ((exists st, awaiting st = true /\ t' = upd_cycle c (at_stage st) t)
      \/ (exists sdp,
             t' = upd_cycle c (at_stage AwaitFetch)
                    (fetch (mkRequest POST (c_url cy) sdp) t))
      \/ t' = rejected c cy t
      \/ exists u, t' = resolved c cy (mkSession c u) t).
Proof.
  intros Hc. unfold Whep.step, Whep.handler. rewrite Hc. unfold Whep.resume.
  destruct (c_stage cy) eqn:Hst; destruct r as [[sdp| |res0|body]|];
    try discriminate; (split; [reflexivity|]);
    try (injection H as Hr; rewrite (reject_returns t c cy Hc) in Hr;
         injection Hr as <-; right; right; left; reflexivity).
  - revert H. act. intros [= <-]. left. eexists. split; [|reflexivity]. reflexivity.
  - revert H. act. intros [= <-]. right. left. eexists. reflexivity.
  - revert H. act. intros [= <-]. left. eexists. split; [|reflexivity]. reflexivity.
  - revert H. act. intros [= <-]. left. eexists. split; [|reflexivity]. reflexivity.
  - destruct (session_url (r_location res) (c_url cy)) as [u|].
    + injection H as Hr. rewrite (resolve_returns t c cy _ Hc) in Hr.
      injection Hr as <-. right. right. right. exists u. reflexivity.
    + injection H as Hr. rewrite (reject_returns t c cy Hc) in Hr.
      injection Hr as <-. right. right. left. reflexivity.
Qed.


(** A commit, in closed form. *)
Lemma render_eq (cam : camera) (base : string) (t : tile) :
  render cam base t
  = Returned tt
      (if bool_decide (deps t = Some (id cam, base)) then t
       else if truthy_str base
            then bound (endpoint cam base) (Some (id cam, base)) (cleaned t)
            else set_effect None (Some (id cam, base)) (cleaned t)).
Proof.
  unfold render. cbv [mbind act_bind get].
  destruct (bool_decide _); [reflexivity|].
  rewrite run_cleanup_returns. fold (cleaned t). rewrite bind_effect_cases.
  destruct (truthy_str base); reflexivity.
Qed.



(** ** The live-view controller: what the specification states *)



(** C4.  The cleanup of a bind cycle returns normally from every state.
    When it returns, the connection of the retained session is closed; a
    DELETE was issued exactly when the retained session has a locator; and
    neither outcome of that request changes the controller or raises.  The
    two handlers that run the cleanup, unmount and a render that rebinds,
    return normally as well. *)
Theorem teardown_never_raises (t : tile) (c : nat) :
  (exists t',
      teardown c t = Returned tt t'
      /\ (forall s, sessionRef t = Some s -> pc_is_open t' (s_pc s) = false)
      /\ requests t'
         = (requests t ++
            match sessionRef t with
            | Some s =>
                if truthy_ostr (s_url s)
                then [mkRequest DELETE (url_arg (s_url s)) ""]
                else []
            | None => []
            end)%list
      /\ (forall i ok o,
            step t' (DeleteSettled i ok) = Some o -> o = Returned tt t'))
  /\ (exists t', unmount t = Returned tt t')
  /\ (forall cam base, exists t', render cam base t = Returned tt t').
Proof.
  split; [|split].
  - exists (torn_down c t). split; [apply teardown_returns|].
    split; [intros s Hs; apply torn_down_closed; exact Hs|].
    split.
    + unfold torn_down. destruct (sessionRef t) as [s|]; cbn.
      * destruct (truthy_ostr (s_url s)); cbn; [reflexivity|].
        symmetry; apply app_nil_r.
      * symmetry; apply app_nil_r.
    + intros i ok o. unfold Whep.step, Whep.handler.
      destruct (requests (torn_down c t) !! i) as [q|]; [|discriminate].
      destruct (is_delete q); [|discriminate].
      destruct ok; intros [= <-]; reflexivity.
  - eexists. apply unmount_returns.
  - intros cam base. destruct (render_returns cam base t) as (t' & H & _).
    exists t'. exact H.
Qed.

(** C6, amended.  On every teardown path the connection of the session the
    controller holds is closed when the handler returns, and the
    controller's reference to that session is left as it was: in the cleanup
    itself, from every state; in an unmount that runs the cleanup; and, in
    every state the controller reaches, in a render that rebinds. *)
Theorem teardown_closes_held_session (t : tile) (c : nat) :
  (exists t',
      teardown c t = Returned tt t'
      /\ sessionRef t' = sessionRef t
      /\ forall s, sessionRef t = Some s -> pc_is_open t' (s_pc s) = false)
  /\ (cleanup t = Some c ->
      exists t',
        unmount t = Returned tt t'
        /\ sessionRef t' = sessionRef t
        /\ forall s, sessionRef t = Some s -> pc_is_open t' (s_pc s) = false)
  /\ (forall es cam base,
         run init es = Some t ->
         cleanup t = Some c ->
         deps t <> Some (id cam, base) ->
         exists t',
           render cam base t = Returned tt t'
           /\ sessionRef t' = sessionRef t
           /\ forall s, sessionRef t = Some s ->
                        pc_is_open t' (s_pc s) = false).
Proof.
  split; [|split].
  - exists (torn_down c t). split; [apply teardown_returns|].
    split; [apply torn_down_sessionRef|].
    intros s Hs. apply torn_down_closed. exact Hs.
  - intros Hcl. eexists. split; [apply unmount_returns|]. rewrite Hcl.
    split; [apply torn_down_sessionRef|].
    intros s Hs. apply (torn_down_closed c t s Hs).
  - intros es cam base Hrun Hcl Hdeps.
    pose proof (run_wf es init t init_wf Hrun) as Hwf.
    eexists. split; [apply render_eq|].
    rewrite bool_decide_eq_false_2 by exact Hdeps.
    assert (Hc : cleaned t = torn_down c t)
      by (unfold cleaned; rewrite Hcl; reflexivity).
    rewrite Hc.
    destruct (truthy_str base); cbn.
    + split; [apply torn_down_sessionRef|]. intros s Hs.
      pose proof (w_session t (wf_base t Hwf) s Hs) as Hst.
      unfold stage_of in Hst.
      destruct (cycles t !! s_pc s) as [cy|] eqn:Hp; [|discriminate].
      assert (Hp' : is_Some (cycles (torn_down c t) !! s_pc s)).
      { rewrite <- Hc.
        destruct (cleaned_lookup_fwd t (s_pc s) cy Hp) as (cy' & -> & _).
        eexists; reflexivity. }
      destruct Hp' as [cy' Hp'].
      unfold pc_is_open. cbn.
      rewrite lookup_app_l by (eapply lookup_lt_Some; exact Hp').
      apply (torn_down_closed c t s Hs).
    + split; [apply torn_down_sessionRef|]. intros s Hs.
      apply (torn_down_closed c t s Hs).
Qed.

(** C7, amended.  Whenever a promise [startWhep] awaits is rejected (the
    offer cannot be made or committed, the request fails on the network, the
    body cannot be read, the answer is refused as a remote description), the
    call ends rejected and the session reference is not touched; a cycle
    that is still active shows the single error "WebRTC failed" and stops
    connecting, a superseded one changes nothing on the view.  The call
    resolves with a session only from its last suspension point: there is no
    partial success. *)
Theorem negotiation_failure_is_one_error (t : tile) (c : nat) (cy : cycle) :
  cycles t !! c = Some cy ->
  awaiting (c_stage cy) = true ->
  (exists t',
      step t (Settle c Reject) = Some (Returned tt t')
      /\ stage_of t' c = Some Rejected
      /\ sessionRef t' = sessionRef t
      /\ srcObject t' = srcObject t
      /\ (c_active cy = true ->
          error t' = "WebRTC failed" /\ connecting t' = false)
      /\ (c_active cy = false ->
          error t' = error t /\ connecting t' = connecting t))
  /\ (forall r t' s,
         step t (Settle c r) = Some (Returned tt t') ->
         stage_of t' c = Some (Resolved s) ->
         exists res answer,
           c_stage cy = AwaitRemote res answer
           /\ r = Fulfil P_unit
           /\ session_url (r_location res) (c_url cy) = Some (s_url s)
           /\ s_pc s = c).
Proof.
  intros H Ha. split.
  - rewrite (settle_reject t c cy H Ha), (reject_returns t c cy H).
    eexists. split; [reflexivity|]. cbn.
    pose proof (stage_of_upd t c Rejected cy H) as Hk.
    destruct (c_active cy); cbn; (split; [exact Hk|]);
      do 2 (split; [reflexivity|]); split; auto; discriminate.
  - intros r t' s Hstep Hs. eapply resolved_only_at_end; eassumption.
Qed.

(** C9.  The track handler attaches the first stream of the event to the
    sink and does so idempotently: after the event the sink holds that
    stream and nothing else of the controller changed; when the sink held
    the stream already the controller is exactly as before; handling the
    same event again changes nothing; an event without streams changes
    nothing. *)
Theorem ontrack_attaches_idempotently (t : tile) (c : nat) (s : stream)
    (rest : list stream) :
  pc_is_open t c = true ->
  exists t',
    step t (Track c (s :: rest)) = Some (Returned tt t')
    /\ srcObject t' = Some s
    /\ t' = (if bool_decide (srcObject t = Some s) then t
             else set_srcObject (Some s) t)
    /\ step t' (Track c (s :: rest)) = Some (Returned tt t')
    /\ step t (Track c []) = Some (Returned tt t).
Proof.
  intros Hopen.
  assert (Hsame : forall t0, pc_is_open t0 c = true -> srcObject t0 = Some s ->
                  Whep.step URL t0 (Track c (s :: rest)) = Some (Returned tt t0)).
  { intros t0 Ho Hs. unfold Whep.step, Whep.handler. rewrite Ho.
    unfold ontrack. act. rewrite Hs.
    rewrite bool_decide_eq_false_2; [reflexivity|].
    intros Hne. apply Hne. reflexivity. }
  destruct (decide (srcObject t = Some s)) as [Hs|Hs].
  - exists t. rewrite (bool_decide_eq_true_2 _ Hs).
    split; [apply Hsame; assumption|]. split; [exact Hs|].
    split; [reflexivity|]. split; [apply Hsame; assumption|].
    unfold Whep.step, Whep.handler. rewrite Hopen. reflexivity.
  - exists (set_srcObject (Some s) t). rewrite (bool_decide_eq_false_2 _ Hs).
    split.
    + unfold Whep.step, Whep.handler. rewrite Hopen. unfold ontrack. act.
      rewrite bool_decide_eq_true_2 by exact Hs. reflexivity.
    + split; [reflexivity|]. split; [reflexivity|].
      split; [apply Hsame; [exact Hopen|reflexivity]|].
      unfold Whep.step, Whep.handler. rewrite Hopen. reflexivity.
Qed.

(** C5. The locator a negotiation leaves in the controller is the platform's
    resolution of the response's [Location] header against the endpoint
    the offer was POSTed to, [new URL(location, whepUrl).toString()]: for
    every camera, every truthy gateway base, every offer, answer and
    response, after the five awaits of [startWhep] have been fulfilled the
    retained session carries [URL location whepUrl], and unmounting sends the
    DELETE to exactly that address.  When the header is absent (or empty) the
    session carries no locator and unmounting sends nothing.  When the
    constructor throws, the negotiation is rejected and no session is
    retained. *)
Theorem locator_is_resolved_location (cam : camera)
    (webrtcBase offer answer : string) (res : response) (t : tile) :
  truthy_str webrtcBase = true ->
  run init [ Render cam webrtcBase;
             Settle 0 (Fulfil (P_offer offer));
             Settle 0 (Fulfil P_unit);
             Settle 0 (Fulfil (P_response res));
             Settle 0 (Fulfil (P_text answer));
             Settle 0 (Fulfil P_unit) ] = Some t ->
  let whepUrl :=
    webrtcBase +:+ "/" +:+ or_str (stream_path cam) (id cam) +:+ "/whep" in
  requests t = [mkRequest POST whepUrl offer]
  /\ match r_location res with
     | Some (String a l) =>
         match URL (String a l) whepUrl with
         | Some u =>
             sessionRef t = Some (mkSession 0 (Some u))
             /\ forall t', run t [Unmount] = Some t' ->
                  requests t'
                  = (requests t ++
                     if truthy_str u then [mkRequest DELETE u ""] else [])%list
         | None => sessionRef t = None /\ error t = "WebRTC failed"
         end
     | Some EmptyString | None =>
         sessionRef t = Some (mkSession 0 None)
         /\ forall t', run t [Unmount] = Some t' -> requests t' = requests t
     end.
Proof.
  intros Hb. cbn zeta.
  change (webrtcBase +:+ "/" +:+ or_str (stream_path cam) (id cam) +:+ "/whep")
    with (endpoint cam webrtcBase).
  cbn [Whep.run]. unfold Whep.step at 1. cbn [Whep.handler unmounted init].
  rewrite render_eq. cbn [deps init]. rewrite Hb.
  rewrite bool_decide_eq_false_2 by discriminate.
  generalize (endpoint cam webrtcBase). intros w.
  destruct res as [status loc].
  destruct loc as [[|a l]|]; intros H; cbv -[String.append] in H.
  - injection H as <-. cbv -[String.append].
    split; [reflexivity|]. split; [reflexivity|].
    intros t' H'. injection H' as <-. reflexivity.
  - cbn [r_location]. destruct (URL (String a l) w) as [u|] eqn:Hu;
      injection H as <-.
    + cbv -[String.append]. split; [reflexivity|]. split; [reflexivity|].
      intros t'. destruct u as [|b u]; intros H'; injection H' as <-; reflexivity.
    + cbv -[String.append]. split; [reflexivity|]. split; reflexivity.
  - injection H as <-. cbv -[String.append].
    split; [reflexivity|]. split; [reflexivity|].
    intros t' H'. injection H' as <-. reflexivity.
Qed.

(** The track handler writes the sink whenever its connection is open;
    the liveness flag of the cycle plays no part. *)
Lemma track_ignores_liveness (t : tile) (c : nat) (m : stream)
    (rest : list stream) :
  pc_is_open t c = true ->
  srcObject t <> Some m ->
  step t (Track c (m :: rest)) = Some (Returned tt (set_srcObject (Some m) t)).
Proof.
  intros Hopen Hne. unfold Whep.step, Whep.handler. rewrite Hopen.
  unfold ontrack. act. rewrite bool_decide_eq_true_2 by exact Hne.
  reflexivity.
Qed.

(** C2, evaluated on the code.  The bind cycle is unbound (by unmount, or by
    a rebind to another camera) before its negotiation resolves; its liveness
    flag is cleared and the sink is empty.  The negotiation then proceeds on
    the connection nobody closed, and the track that arrives while the answer
    is applied is written to the sink. *)
Theorem track_after_unbind_reaches_sink :
  (exists t1 t2,
      run init [Render cam1 gw; Unmount] = Some t1
      /\ is_active t1 0 = false /\ srcObject t1 = None
      /\ run t1 (to_response 0 created ++ to_live 0 7)%list = Some t2
      /\ srcObject t2 = Some 7)
  /\ (exists t1 t2,
      run init [Render cam1 gw; Render cam2 gw] = Some t1
      /\ is_active t1 0 = false /\ is_active t1 1 = true
      /\ srcObject t1 = None
      /\ run t1 (to_response 0 created ++ to_live 0 7)%list = Some t2
      /\ srcObject t2 = Some 7).
Proof.
  destruct (URL "/sessions/abc123" "https://gw/cam1/whep") as [u|] eqn:Hu;
    (split; do 2 eexists; (split; [vm_compute; reflexivity|]);
     repeat (split; [vm_compute; reflexivity|]);
     (split; [cbv; rewrite Hu; reflexivity|reflexivity])).
Qed.

(** ** Invariants of the controller *)

(** The liveness flag is set for at most one bind cycle, the one whose
    cleanup React currently holds; after an unmount it is set for none. *)
Theorem active_cycle_is_current (es : list event) (t : tile) :
  run init es = Some t ->
  (forall c, is_active t c = true <-> cleanup t = Some c)
  /\ (forall c1 c2,
         is_active t c1 = true -> is_active t c2 = true -> c1 = c2)
  /\ (unmounted t = true -> forall c, is_active t c = false).
Proof.
  intros Hrun. pose proof (run_wf es init t init_wf Hrun) as Hwf.
  assert (Hcur : forall c, is_active t c = true ->
                           cleanup t = Some c /\ unmounted t = false).
  { intros c. unfold is_active.
    destruct (cycles t !! c) as [cy|] eqn:Hp; [|discriminate].
    intros Ha. destruct (wf_active t Hwf c cy Hp Ha) as (H1 & H2 & _).
    split; assumption. }
  split; [|split].
  - intros c. split; [intros Ha; apply Hcur, Ha|apply (wf_cleanup t Hwf)].
  - intros c1 c2 H1 H2. apply Hcur in H1 as [H1 _]. apply Hcur in H2 as [H2 _].
    congruence.
  - intros Hum c. destruct (is_active t c) eqn:Ha; [|reflexivity].
    apply Hcur in Ha as [_ Ha]. congruence.
Qed.

(** While a cycle is bound, the view follows its stage: connecting and no
    error while the negotiation is in flight; the session retained, not
    connecting and no error once it resolved; "WebRTC failed" and not
    connecting once it was rejected. *)
Theorem view_follows_current_stage (es : list event) (t : tile) (c : nat) :
  run init es = Some t ->
  cleanup t = Some c ->
  exists cy,
    cycles t !! c = Some cy
    /\ match c_stage cy with
       | Resolved s =>
           sessionRef t = Some s /\ connecting t = false /\ error t = ""
       | Rejected => connecting t = false /\ error t = "WebRTC failed"
       | _ => connecting t = true /\ error t = ""
       end.
Proof.
  intros Hrun Hcl. pose proof (run_wf es init t init_wf Hrun) as Hwf.
  pose proof (wf_cleanup t Hwf c Hcl) as Ha. unfold is_active in Ha.
  destruct (cycles t !! c) as [cy|] eqn:Hp; [|discriminate].
  exists cy. split; [reflexivity|].
  destruct (wf_active t Hwf c cy Hp Ha) as (_ & _ & Hsh). exact Hsh.
Qed.

(** The session the controller references is always the one its own cycle
    resolved with: a cycle that is in flight or was rejected is never
    referenced. *)
Theorem retained_session_is_negotiated (es : list event) (t : tile)
    (s : session) :
  run init es = Some t ->
  sessionRef t = Some s ->
  stage_of t (s_pc s) = Some (Resolved s).
Proof.
  intros Hrun Hs. pose proof (run_wf es init t init_wf Hrun) as Hwf.
  apply (w_session t (wf_base t Hwf)). exact Hs.
Qed.

(** The controller closes a connection only after its negotiation
    resolved: the connection of a cycle that is still in flight, or whose
    negotiation was rejected, is open in every state the controller
    reaches. *)
Theorem unresolved_connection_is_open (es : list event) (t : tile) (c : nat)
    (cy : cycle) :
  run init es = Some t ->
  cycles t !! c = Some cy ->
  (forall s, c_stage cy <> Resolved s) ->
  c_open cy = true.
Proof.
  intros Hrun Hp Hst. pose proof (run_wf es init t init_wf Hrun) as Hwf.
  destruct (c_open cy) eqn:Ho; [reflexivity|].
  destruct (w_closed t (wf_base t Hwf) c cy Hp Ho) as [s Hs].
  exfalso. exact (Hst s Hs).
Qed.

(** Every request the controller sends has an origin in a bind cycle: a
    POST goes to the endpoint of one of its cycles, a DELETE to the locator
    of a session one of its cycles resolved with (never to a missing
    locator). *)
Theorem requests_have_origin (es : list event) (t : tile) (q : request) :
  run init es = Some t ->
  In q (requests t) ->
  match q_method q with
  | POST => exists c cy, cycles t !! c = Some cy /\ q_url q = c_url cy
  | DELETE =>
      exists c s, stage_of t c = Some (Resolved s) /\ s_url s = Some (q_url q)
  end.
Proof.
  intros Hrun Hq. pose proof (run_wf es init t init_wf Hrun) as Hwf.
  apply (w_requests t (wf_base t Hwf)). exact Hq.
Qed.

(** A tile that is unmounted while its negotiation is in flight (its
    camera left the list, or the dashboard went away) never closes the
    connection it created: the cleanup closes the retained session only, and
    nothing was retained yet.  The connection stays open whatever happens
    afterwards, also when the negotiation completes. *)
Theorem pending_connection_survives_unmount (es es' : list event)
    (t t' : tile) (c : nat) (cy : cycle) :
  run init es = Some t ->
  cleanup t = Some c ->
  cycles t !! c = Some cy ->
  awaiting (c_stage cy) = true ->
  run t (Unmount :: es') = Some t' ->
  pc_is_open t' c = true.
Proof.
  intros Hrun Hcl Hc Ha Hrun'.
  pose proof (run_wf es init t init_wf Hrun) as Hwf.
  assert (Ho : c_open cy = true).
  { destruct (c_open cy) eqn:Ho; [reflexivity|].
    destruct (w_closed t (wf_base t Hwf) c cy Hc Ho) as [s Hs].
    rewrite Hs in Ha. discriminate. }
  assert (Hs : forall s, sessionRef t = Some s -> s_pc s <> c).
  { intros s Hs Heq.
    pose proof (w_session t (wf_base t Hwf) s Hs) as Hst.
    unfold stage_of in Hst. rewrite Heq, Hc in Hst. injection Hst as Hst.
    rewrite Hst in Ha. discriminate. }
  pose proof (unbound_pending_leaks c t cy Hc Ho Ha Hs) as Hleak.
  cbn [Whep.run] in Hrun'. unfold Whep.step at 1, Whep.handler in Hrun'.
  destruct (unmounted t); [discriminate|].
  destruct (deps t); [|discriminate].
  rewrite unmount_returns, Hcl in Hrun'.
  destruct (leaked_forever es' _ t' c Hrun') as [H _]; [|exact H].
  exact Hleak.
Qed.

(** ** The sink *)

(** The outcome of a superseded cycle is discarded: when the promise of a
    cycle whose liveness flag is cleared settles, in whatever way, nothing
    the view shows and no reference changes; only the record of the call
    itself moves on. *)
Theorem superseded_outcome_is_discarded (t t' : tile) (c : nat) (cy : cycle)
    (r : reply) :
  cycles t !! c = Some cy ->
  c_active cy = false ->
  step t (Settle c r) = Some (Returned tt t') ->
  sessionRef t' = sessionRef t
  /\ connecting t' = connecting t
  /\ error t' = error t
  /\ srcObject t' = srcObject t
  /\ cleanup t' = cleanup t
  /\ forall p, p <> c -> cycles t' !! p = cycles t !! p.
Proof.
  intros Hc Ha Hstep.
  destruct (settle_cases t t' c cy r Hc Hstep)
    as (_ & [(st & _ & ->)|[(sdp & ->)|[->|(u & ->)]]]);
    unfold rejected, resolved; rewrite ?Ha; cbn;
    (do 5 (split; [reflexivity|]));
    intros p Hne; apply list_lookup_alter_ne; congruence.
Qed.

(** What a step does to the sink. *)
Lemma step_sink (t t' : tile) (e : event) :
  step t e = Some (Returned tt t') ->
  match e with
  | Track _ (m :: _) => srcObject t' = Some m
  | _ => srcObject t' = srcObject t
  end.
Proof.
  destruct e as [cam base| |c r|c streams|i ok].
  - unfold Whep.step, Whep.handler. destruct (unmounted t); [discriminate|].
    intros [= Hr]. revert Hr. unfold render. cbv [mbind act_bind get].
    destruct (bool_decide _); [intros [= <-]; reflexivity|].
    rewrite run_cleanup_returns. fold (cleaned t). rewrite bind_effect_cases.
    destruct (truthy_str base); act; intros [= <-]; cbn; apply cleaned_view.
  - unfold Whep.step, Whep.handler. destruct (unmounted t); [discriminate|].
    destruct (deps t); [|discriminate]. intros [= Hr].
    rewrite unmount_returns in Hr. injection Hr as <-. cbn. apply cleaned_view.
  - intros Hstep. destruct (cycles t !! c) as [cy|] eqn:Hc.
    + destruct (settle_cases t t' c cy r Hc Hstep)
        as (_ & [(st & _ & ->)|[(sdp & ->)|[->|(u & ->)]]]);
        unfold rejected, resolved; try destruct (c_active cy); reflexivity.
    + unfold Whep.step, Whep.handler in Hstep. rewrite Hc in Hstep. discriminate.
  - unfold Whep.step, Whep.handler. destruct (pc_is_open t c); [|discriminate].
    intros [= Hr]. revert Hr. unfold ontrack. act.
    destruct streams as [|m rest]; [intros [= <-]; reflexivity|].
    destruct (bool_decide (srcObject t <> Some m)) eqn:Hd; intros [= <-].
    + reflexivity.
    + apply bool_decide_eq_false in Hd.
      destruct (decide (srcObject t = Some m)) as [H|H].
      * exact H.
      * contradiction.
  - unfold Whep.step, Whep.handler.
    destruct (requests t !! i) as [q|]; [|discriminate].
    destruct (is_delete q); [|discriminate].
    destruct ok; intros [= <-]; reflexivity.
Qed.

(** The sink is written by track events only, and nothing ever empties it:
    along a run without track events the sink keeps its content (a bind, a
    teardown or an unmount do not reset it), and a sink that holds a stream
    holds a stream for the rest of the controller's life. *)
Theorem sink_is_never_reset (es : list event) (t t' : tile) :
  run t es = Some t' ->
  (forallb (fun e => negb (is_track e)) es = true ->
   srcObject t' = srcObject t)
  /\ (srcObject t <> None -> srcObject t' <> None).
Proof.
  revert t. induction es as [|e es IH]; intros t; cbn.
  - intros [= <-]. split; [reflexivity|intros H; exact H].
  - destruct (step t e) as [[[] t1|]|] eqn:He; try discriminate.
    intros Hrun. destruct (IH t1 Hrun) as [IH1 IH2].
    pose proof (step_sink t t1 e He) as Hs. split.
    + intros Hall. apply andb_prop in Hall as [Hq Hall].
      rewrite (IH1 Hall). destruct e; try exact Hs. discriminate Hq.
    + intros Hne. apply IH2.
      destruct e as [| | |c [|m rest]|]; try (rewrite Hs; exact Hne).
      rewrite Hs. discriminate.
Qed.

End OnAnyPlatform.

(** ** One controller, on a platform that resolves the scenario's header *)

Section Controller.
Import Whep Moves Scenario.

Local Abbreviation step := (Whep.step href).
Local Abbreviation run := (Whep.run href).


Lemma locator_is_resolved_location_witness :
  exists t,
    run init [ Render cam1 gw;
               Settle 0 (Fulfil (P_offer sdp_offer));
               Settle 0 (Fulfil P_unit);
               Settle 0 (Fulfil (P_response created));
               Settle 0 (Fulfil (P_text sdp_answer));
               Settle 0 (Fulfil P_unit) ] = Some t
    /\ requests t = [mkRequest POST "https://gw/cam1/whep" sdp_offer]
    /\ sessionRef t = Some (mkSession 0 (Some "https://gw/sessions/abc123")).
Proof.
  eexists. split; [vm_compute; reflexivity|].
  refine (let H := locator_is_resolved_location href cam1 gw sdp_offer
                     sdp_answer created _ _ _ in _).
  - destruct H as [Hq [Hs _]]. split; [exact Hq|exact Hs].
  Unshelve.
  + reflexivity.
  + vm_compute; reflexivity.
Defined.

(** C6 as stated fails: after a session went live and the controller was
    torn down, the controller still references the session; a later
    teardown of a cycle that retained nothing finds it again and repeats
    the DELETE. *)
Lemma teardown_leaves_stale_session :
  exists t t' t'',
    run init live = Some t
    /\ teardown 0 t = Returned tt t'
    /\ sessionRef t' = Some (mkSession 0 (Some "https://gw/sessions/abc123"))
    /\ run init (live ++ [Render cam2 gw; Unmount])%list = Some t''
    /\ sessionRef t'' = Some (mkSession 0 (Some "https://gw/sessions/abc123"))
    /\ filter (fun q => is_delete q = true) (requests t'')
       = [ mkRequest DELETE "https://gw/sessions/abc123" "";
           mkRequest DELETE "https://gw/sessions/abc123" "" ].
Proof.
  do 3 eexists. split; [vm_compute; reflexivity|].
  split; [vm_compute; reflexivity|].
  split; [reflexivity|].
  split; [vm_compute; reflexivity|].
  split; vm_compute; reflexivity.
Qed.

Lemma teardown_closes_held_session_witness :
  exists t t',
    run init live = Some t
    /\ unmount t = Returned tt t'
    /\ sessionRef t' = sessionRef t
    /\ pc_is_open t' 0 = false.
Proof.
  exists (mkTile (Some 7)
            (Some (mkSession 0 (Some "https://gw/sessions/abc123")))
            false ""
            [mkCycle true "https://gw/cam1/whep" true
               (Resolved (mkSession 0 (Some "https://gw/sessions/abc123")))]
            (Some 0) (Some ("1", "https://gw")) false
            [mkRequest POST "https://gw/cam1/whep" sdp_offer]).
  match goal with
  | |- exists t', run init live = Some ?t /\ _ =>
      destruct (teardown_closes_held_session href t 0) as (_ & H & _)
  end.
  destruct (H eq_refl) as (t' & Hu & Hs & Hc).
  exists t'. split; [vm_compute; reflexivity|].
  split; [exact Hu|]. split; [exact Hs|].
  apply (Hc (mkSession 0 (Some "https://gw/sessions/abc123"))). reflexivity.
Defined.

(** C7 as stated fails: the gateway answers with status 500 and a body the
    peer connection accepts; the status is not looked at and the controller
    goes live.  And when the request of a cycle that was unbound in the
    meantime fails, the controller shows no error. *)
Lemma failure_status_goes_live :
  (exists t,
      run init (Render cam1 gw
                :: to_response 0 (mkResponse 500 (Some "/sessions/abc123"))
                ++ to_live 0 7)%list = Some t
      /\ stage_of t 0
         = Some (Resolved (mkSession 0 (Some "https://gw/sessions/abc123")))
      /\ sessionRef t = Some (mkSession 0 (Some "https://gw/sessions/abc123"))
      /\ error t = ""
      /\ connecting t = false)
  /\ (exists t,
        run init (Render cam1 gw :: Unmount :: fetch_fails 0) = Some t
        /\ stage_of t 0 = Some Rejected
        /\ error t = "").
Proof.
  split; eexists; (split; [vm_compute; reflexivity|]); vm_compute; auto.
Qed.

Lemma negotiation_failure_is_one_error_witness :
  exists t t',
    run init [Render cam1 gw; Settle 0 (Fulfil (P_offer sdp_offer));
              Settle 0 (Fulfil P_unit)] = Some t
    /\ step t (Settle 0 Reject) = Some (Returned tt t')
    /\ error t' = "WebRTC failed"
    /\ connecting t' = false
    /\ sessionRef t' = None.
Proof.
  eexists.
  destruct (negotiation_failure_is_one_error href
              (mkTile None None true ""
                 [mkCycle true "https://gw/cam1/whep" true AwaitFetch]
                 (Some 0) (Some ("1", "https://gw")) false
                 [mkRequest POST "https://gw/cam1/whep" sdp_offer])
              0 (mkCycle true "https://gw/cam1/whep" true AwaitFetch)
              eq_refl eq_refl)
    as [(t' & Hstep & _ & Href & _ & Herr & _) _].
  exists t'. split; [vm_compute; reflexivity|].
  split; [exact Hstep|].
  destruct (Herr eq_refl) as [He Hc].
  split; [exact He|]. split; [exact Hc|exact Href].
Defined.

Lemma ontrack_attaches_idempotently_witness :
  exists t t',
    run init (Render cam1 gw :: to_response 0 created ++
              [Settle 0 (Fulfil (P_text sdp_answer))])%list = Some t
    /\ srcObject t = None
    /\ step t (Track 0 [7; 8]) = Some (Returned tt t')
    /\ srcObject t' = Some 7
    /\ step t' (Track 0 [7; 8]) = Some (Returned tt t').
Proof.
  eexists.
  refine (let H := ontrack_attaches_idempotently href _ 0 7 [8] _ in _).
  - destruct H as (t' & Hstep & Hsink & _ & Hagain & _).
    exists t'. split; [vm_compute; reflexivity|].
    split; [reflexivity|]. split; [exact Hstep|]. split; [exact Hsink|exact Hagain].
  Unshelve.
  vm_compute; reflexivity.
Defined.

Lemma active_cycle_is_current_witness :
  exists t,
    run init [Render cam1 ""; Render cam1 gw; Render cam1 gw] = Some t
    /\ cleanup t = Some 0
    /\ is_active t 0 = true.
Proof.
  eexists. split; [vm_compute; reflexivity|]. split; [reflexivity|].
  apply (active_cycle_is_current href
           [Render cam1 ""; Render cam1 gw; Render cam1 gw]).
  - vm_compute; reflexivity.
  - reflexivity.
Defined.

Lemma view_follows_current_stage_witness :
  exists t cy,
    run init (Render cam1 gw :: fetch_fails 0) = Some t
    /\ cycles t !! 0 = Some cy
    /\ c_stage cy = Rejected
    /\ error t = "WebRTC failed".
Proof.
  eexists.
  refine (let H := view_follows_current_stage href
                     (Render cam1 gw :: fetch_fails 0)
                     (mkTile None None false "WebRTC failed"
                        [mkCycle true "https://gw/cam1/whep" true Rejected]
                        (Some 0) (Some ("1", "https://gw")) false
                        [mkRequest POST "https://gw/cam1/whep" sdp_offer])
                     0 _ eq_refl in _).
  - destruct H as (cy & Hp & Hv).
    exists cy. split; [vm_compute; reflexivity|]. split; [exact Hp|].
    injection Hp as <-. split; [reflexivity|]. cbn in Hv. apply Hv.
  Unshelve.
  vm_compute; reflexivity.
Defined.

Lemma retained_session_is_negotiated_witness :
  exists t s,
    run init (live ++ [Render cam1 gw; Unmount])%list = Some t
    /\ sessionRef t = Some s
    /\ stage_of t 0 = Some (Resolved s).
Proof.
  eexists. eexists (mkSession 0 (Some "https://gw/sessions/abc123")).
  split; [vm_compute; reflexivity|]. split; [reflexivity|].
  apply (retained_session_is_negotiated href
           (live ++ [Render cam1 gw; Unmount])%list _
           (mkSession 0 (Some "https://gw/sessions/abc123"))).
  - vm_compute; reflexivity.
  - reflexivity.
Defined.

Lemma unresolved_connection_is_open_witness :
  exists t cy,
    run init (Render cam1 gw :: fetch_fails 0 ++ [Unmount])%list = Some t
    /\ cycles t !! 0 = Some cy
    /\ c_stage cy = Rejected
    /\ c_open cy = true.
Proof.
  eexists. eexists (mkCycle false "https://gw/cam1/whep" true Rejected).
  split; [vm_compute; reflexivity|]. split; [reflexivity|].
  split; [reflexivity|].
  eapply (unresolved_connection_is_open href
            (Render cam1 gw :: fetch_fails 0 ++ [Unmount])%list _ 0).
  - vm_compute; reflexivity.
  - reflexivity.
  - intros s. discriminate.
Defined.

Lemma requests_have_origin_witness :
  exists t c s,
    run init (live ++ [Unmount])%list = Some t
    /\ stage_of t c = Some (Resolved s)
    /\ s_url s = Some "https://gw/sessions/abc123".
Proof.
  eexists.
  refine (let H := requests_have_origin href (live ++ [Unmount])%list
              (mkTile (Some 7)
                 (Some (mkSession 0 (Some "https://gw/sessions/abc123")))
                 false ""
                 [mkCycle false "https://gw/cam1/whep" false
                    (Resolved (mkSession 0 (Some "https://gw/sessions/abc123")))]
                 None (Some ("1", "https://gw")) true
                 [mkRequest POST "https://gw/cam1/whep" sdp_offer;
                  mkRequest DELETE "https://gw/sessions/abc123" ""])
              (mkRequest DELETE "https://gw/sessions/abc123" "")
              _ (or_intror (or_introl eq_refl)) in _).
  - destruct H as (c & s & Hst & Hu).
    exists c, s. split; [vm_compute; reflexivity|]. split; [exact Hst|exact Hu].
  Unshelve.
  vm_compute; reflexivity.
Defined.

Lemma pending_connection_survives_unmount_witness :
  exists t t',
    run init [Render cam1 gw; Settle 0 (Fulfil (P_offer sdp_offer))] = Some t
    /\ run t (Unmount :: Settle 0 (Fulfil P_unit)
              :: Settle 0 (Fulfil (P_response created)) :: to_live 0 7) = Some t'
    /\ pc_is_open t' 0 = true
    /\ srcObject t' = Some 7.
Proof.
  do 2 eexists. split; [vm_compute; reflexivity|].
  split; [vm_compute; reflexivity|].
  split; [|reflexivity].
  eapply (pending_connection_survives_unmount href
            [Render cam1 gw; Settle 0 (Fulfil (P_offer sdp_offer))]
            (Settle 0 (Fulfil P_unit)
             :: Settle 0 (Fulfil (P_response created)) :: to_live 0 7)
            _ _ 0).
  - vm_compute; reflexivity.
  - reflexivity.
  - reflexivity.
  - reflexivity.
  - vm_compute; reflexivity.
Defined.

Lemma superseded_outcome_is_discarded_witness :
  exists t t',
    run init [Render cam1 gw; Unmount] = Some t
    /\ step t (Settle 0 Reject) = Some (Returned tt t')
    /\ error t' = ""
    /\ connecting t' = true.
Proof.
  do 2 eexists. split; [vm_compute; reflexivity|].
  split; [vm_compute; reflexivity|].
  refine (let H := superseded_outcome_is_discarded href
              (mkTile None None true ""
                 [mkCycle false "https://gw/cam1/whep" true AwaitOffer]
                 None (Some ("1", "https://gw")) true [])
              (mkTile None None true ""
                 [mkCycle false "https://gw/cam1/whep" true Rejected]
                 None (Some ("1", "https://gw")) true [])
              0 (mkCycle false "https://gw/cam1/whep" true AwaitOffer) Reject
              eq_refl eq_refl _ in _).
  - destruct H as (_ & Hc & He & _). split; [exact He|exact Hc].
  Unshelve.
  vm_compute; reflexivity.
Defined.

Lemma sink_is_never_reset_witness :
  exists t t',
    run init live = Some t
    /\ run t [Render cam1 gw; Unmount] = Some t'
    /\ srcObject t' = Some 7.
Proof.
  do 2 eexists. split; [vm_compute; reflexivity|].
  split; [vm_compute; reflexivity|].
  refine (let H := sink_is_never_reset href [Render cam1 gw; Unmount]
              (mkTile (Some 7)
                 (Some (mkSession 0 (Some "https://gw/sessions/abc123")))
                 false ""
                 [mkCycle true "https://gw/cam1/whep" true
                    (Resolved (mkSession 0 (Some "https://gw/sessions/abc123")))]
                 (Some 0) (Some ("1", "https://gw")) false
                 [mkRequest POST "https://gw/cam1/whep" sdp_offer])
              _ _ in _).
  - destruct H as [H _]. exact (H eq_refl).
  Unshelve.
  vm_compute; reflexivity.
Defined.

End Controller.

(** ** A controller without a gateway base *)

Section IdleTile.
Import Whep.
Variable URL : string -> string -> option string.

Lemma step_keeps_idle (t : tile) (e : Whep.event) (o : outcome unit) :
  idle t -> unbound e = true -> Whep.step URL t e = Some o ->
  o = Returned tt t \/ exists t', o = Returned tt t' /\ idle t'.
Proof.
  intros (Hc & Hcl & Hrq & Hs & Hv & He & Hcn) Hu.
  unfold Whep.step, Whep.handler.
  destruct e as [cam base| |c r|c streams|i ok]; cbn in Hu.
  - destruct (unmounted t); [discriminate|]. intros [= <-].
    right. unfold render, run_cleanup, bind_effect. act.
    destruct (bool_decide _);
      [eexists; split; [reflexivity|repeat split; assumption]|].
    rewrite Hcl, Hu. eexists. split; [reflexivity|].
    repeat split; assumption.
  - destruct (unmounted t); [discriminate|].
    destruct (deps t); [|discriminate]. intros [= <-].
    right. rewrite unmount_returns, Hcl. eexists. split; [reflexivity|].
    repeat split; assumption.
  - rewrite Hc. discriminate.
  - unfold pc_is_open. rewrite Hc. discriminate.
  - rewrite Hrq. discriminate.
Qed.

Lemma run_keeps_idle (es : list Whep.event) (t t' : tile) :
  idle t -> forallb unbound es = true -> Whep.run URL t es = Some t' -> idle t'.
Proof.
  revert t. induction es as [|e es IH]; intros t Hi; cbn.
  - intros _ [= <-]. exact Hi.
  - intros Hall. apply andb_prop in Hall as [Hu Hall].
    destruct (Whep.step URL t e) as [o|] eqn:He; [|discriminate].
    destruct (step_keeps_idle t e o Hi Hu He) as [->|(t1 & -> & Hi1)].
    + apply IH; assumption.
    + apply IH; assumption.
Qed.

Lemma init_idle : idle init.
Proof. repeat split. Qed.

End IdleTile.

(** ** The dashboard *)

Section Dashboard.
Import App AppFacts AppScenario.
Variables (env_api_base protocol hostname : string).

Local Abbreviation handle := (App.handle env_api_base protocol hostname).
Local Abbreviation step := (App.step env_api_base protocol hostname).
Local Abbreviation run := (App.run env_api_base protocol hostname).
Local Abbreviation on_config := (App.on_config protocol hostname).
Local Abbreviation handleSnapshot_settled :=
  (App.handleSnapshot_settled env_api_base).
Local Abbreviation buildApiUrl := (App.buildApiUrl env_api_base).

Lemma run_invariant (P : app -> Prop) :
  (forall a e a', P a -> step a e = Some a' -> P a') ->
  forall es a a', P a -> run a es = Some a' -> P a'.
Proof.
  intros Hstep es. induction es as [|e es IH]; intros a a' HP; cbn.
  - intros [= <-]. exact HP.
  - destruct (step a e) as [a1|] eqn:He; [|discriminate].
    apply IH. eapply Hstep; eassumption.
Qed.

Lemma run_app (es1 es2 : list event) (a a' : app) :
  run a (es1 ++ es2)%list = Some a' ->
  exists a1, run a es1 = Some a1 /\ run a1 es2 = Some a'.
Proof.
  revert a. induction es1 as [|e es1 IH]; intros a; cbn.
  - intros H. exists a. split; [reflexivity|exact H].
  - destruct (step a e) as [a1|]; [|discriminate]. apply IH.
Qed.

(** A step is the handler followed by the render, or, once the tree is
    gone, the handler with what it sets dropped. *)
Lemma step_inv (a a' : app) (e : event) :
  step a e = Some a' ->
  exists h,
    handle a e = Some h
    /\ pending a' = pending h
    /\ unhandled a' = unhandled h
    /\ ((mounted a = true /\ a' = commit h)
        \/ (mounted a = false /\ is_reply e = true /\ a' = detached a h)).
Proof.
  unfold App.step. destruct (mounted a).
  - destruct (App.handle _ _ _ a e) as [h|]; [|discriminate]. cbn.
    intros [= <-]. exists h. split; [reflexivity|].
    unfold commit, cleanup. destruct (render_ok h); cbn;
      (split; [reflexivity|]); (split; [reflexivity|]); left; split; reflexivity.
  - destruct (is_reply e); [|discriminate].
    destruct (App.handle _ _ _ a e) as [h|]; [|discriminate]. cbn.
    intros [= <-]. exists h. split; [reflexivity|].
    split; [reflexivity|]. split; [reflexivity|]. right. repeat split.
Qed.

(** The render changes nothing the handler has set. *)
Lemma commit_view (h : app) :
  cameras (commit h) = cameras h
  /\ snapshots (commit h) = snapshots h
  /\ webrtcBase (commit h) = webrtcBase h
  /\ motionEvents (commit h) = motionEvents h
  /\ storage (commit h) = storage h.
Proof.
  unfold commit. destruct (render_ok h); repeat split; reflexivity.
Qed.

(** Once the tree is gone nothing is shown, polled or stored any more. *)
Lemma unmounted_is_final (es : list event) (a a' : app) :
  mounted a = false ->
  run a es = Some a' ->
  mounted a' = false
  /\ cameras a' = cameras a /\ motionEvents a' = motionEvents a
  /\ snapshots a' = snapshots a /\ webrtcBase a' = webrtcBase a
  /\ storage a' = storage a
  /\ timer a' = timer a /\ motionTimer a' = motionTimer a.
Proof.
  revert a. induction es as [|e es IH]; intros a Hm; cbn.
  - intros [= <-]. rewrite Hm. repeat split; reflexivity.
  - destruct (step a e) as [a1|] eqn:He; [|discriminate]. intros Hrun.
    destruct (step_inv a a1 e He) as (h & _ & _ & _ & [[Hc _]|(_ & _ & ->)]).
    + rewrite Hm in Hc. discriminate.
    + apply (IH (detached a h) Hm Hrun).
Qed.

(** *** The history of snapshots *)






(** *** The two polls *)

(** C3, evaluated on the code.  [refresh] sets whatever the reply parses
    to; the test for an array that [refreshMotion] makes is missing.  For
    every body that is not an array the camera collection is replaced by that
    body; the render that follows calls [cameras.map], which is not there,
    and the tree is unmounted: both interval timers are cleared and no tick
    retries either poll.  In the run shown, the dashboard holds two cameras
    when an error response with a JSON object as body arrives; afterwards the
    collection is that object, nothing is rendered and every later tick is
    refused, whatever else happens.  The same reply to the motion poll leaves
    its collection and both timers as they were. *)
Theorem error_body_ends_polling :
  (forall a rest r data,
      mounted a = true ->
      take ListCameras (pending a) = Some rest ->
      res_json r = Some data ->
      isArray data = false ->
      exists a',
        step a (CamerasSettled r) = Some a'
        /\ cameras a' = data
        /\ mounted a' = false /\ timer a' = false /\ motionTimer a' = false
        /\ step a' Tick = None /\ step a' MotionTick = None)
  /\ (exists a b,
        run (mount None true) first_polls = Some a
        /\ cameras a = two_cameras
        /\ mounted a = true /\ timer a = true /\ motionTimer a = true
        /\ run a [Tick; CamerasSettled error_reply] = Some b
        /\ cameras b = JObj [("error", JStr "unavailable")]
        /\ mounted b = false /\ timer b = false /\ motionTimer b = false
        /\ (forall es b', run b es = Some b' ->
              cameras b' = cameras b
              /\ timer b' = false /\ motionTimer b' = false
              /\ step b' Tick = None /\ step b' MotionTick = None))
  /\ (exists a b c,
        run (mount None true) first_polls = Some a
        /\ run a [MotionTick; MotionSettled error_reply] = Some b
        /\ motionEvents b = one_event
        /\ cameras b = two_cameras
        /\ mounted b = true /\ timer b = true /\ motionTimer b = true
        /\ step b MotionTick = Some c).
Proof.
  split; [|split].
  - intros a rest r data Hm Ht Hr Hd.
    unfold App.step. rewrite Hm. cbn. unfold settle. rewrite Ht. cbn.
    unfold refresh_settled. rewrite Hr.
    eexists. split; [reflexivity|].
    unfold commit, render_ok. cbn.
    destruct data; try discriminate Hd; cbn; repeat split; reflexivity.
  - do 2 eexists. split; [vm_compute; reflexivity|].
    do 4 (split; [reflexivity|]).
    split; [vm_compute; reflexivity|].
    do 4 (split; [reflexivity|]).
    intros es b' Hrun.
    apply unmounted_is_final in Hrun; [|reflexivity].
    destruct Hrun as (Hm & Hc & _ & _ & _ & _ & Ht & Hmt).
    split; [exact Hc|]. split; [exact Ht|]. split; [exact Hmt|].
    unfold App.step. rewrite Hm. split; reflexivity.
  - do 3 eexists. split; [vm_compute; reflexivity|].
    split; [vm_compute; reflexivity|].
    do 5 (split; [reflexivity|]).
    vm_compute. reflexivity.
Qed.

(** *** The configuration *)

Lemma take_keeps_absent (c x : call) (l l' : list call) :
  take c l = Some l' -> ~ In x l -> ~ In x l'.
Proof.
  revert l'. induction l as [|y l IH]; intros l'; cbn; [discriminate|].
  destruct (bool_decide (y = c)).
  - intros [= <-] Hn Hin. apply Hn. right. exact Hin.
  - destruct (take c l) as [rest|]; [|discriminate].
    intros [= <-] Hn [Hy|Hin].
    + apply Hn. left. exact Hy.
    + apply (IH rest eq_refl); [|exact Hin].
      intros Hx. apply Hn. right. exact Hx.
Qed.

Lemma take_absent (c : call) (l : list call) :
  ~ In c l -> take c l = None.
Proof.
  induction l as [|y l IH]; cbn; [reflexivity|]. intros Hn.
  rewrite bool_decide_eq_false_2 by (intros ->; apply Hn; left; reflexivity).
  rewrite IH; [reflexivity|]. intros Hin. apply Hn. right. exact Hin.
Qed.

Lemma take_filter_length (f : call -> bool) (c : call) (l l' : list call) :
  take c l = Some l' ->
  length (List.filter f l)
  = length (List.filter f l') + (if f c then 1 else 0).
Proof.
  revert l'. induction l as [|x l IH]; intros l'; cbn; [discriminate|].
  destruct (bool_decide (x = c)) eqn:Hx.
  - apply bool_decide_eq_true in Hx. subst x. intros [= <-].
    destruct (f c); cbn; lia.
  - destruct (take c l) as [rest|]; [|discriminate]. intros [= <-].
    specialize (IH rest eq_refl). cbn. destruct (f x); cbn; lia.
Qed.

Lemma snoc_filter_length (f : call -> bool) (c : call) (l : list call) :
  length (List.filter f (l ++ [c]))
  = length (List.filter f l) + (if f c then 1 else 0).
Proof.
  rewrite List.filter_app, length_app. cbn. destruct (f c); reflexivity.
Qed.

Lemma no_config_calls (l : list call) :
  config_calls l = 0 -> ~ In GetConfig l.
Proof.
  unfold config_calls. induction l as [|x l IH]; cbn; [tauto|].
  destruct x; cbn; try discriminate;
    intros H [Hx|Hin]; try discriminate Hx; exact (IH H Hin).
Qed.

Lemma request_keeps_unconfigured (c : call) (a : app) :
  c <> GetConfig -> unconfigured a -> unconfigured (request c a).
Proof.
  intros Hc [Hp Hb]. split; [|exact Hb]. cbn.
  intros Hin. apply in_app_or in Hin. destruct Hin as [Hin|[Hin|[]]].
  - exact (Hp Hin).
  - exact (Hc Hin).
Qed.

Lemma handle_keeps_unconfigured (a h : app) (e : event) :
  handle a e = Some h -> unconfigured a -> unconfigured h.
Proof.
  intros Hstep [Hp Hb].
  assert (Hsettle : forall c rest, take c (pending a) = Some rest ->
                                   unconfigured (set_pending rest a)).
  { intros c rest Ht. split; [|exact Hb]. cbn.
    eapply take_keeps_absent; eassumption. }
  destruct e as [r|r|r| | |id|id r now ok|id confirmed|id r]; cbn in Hstep;
    unfold settle in Hstep.
  - rewrite (take_absent GetConfig _ Hp) in Hstep. discriminate.
  - destruct (take ListCameras (pending a)) as [rest|] eqn:Ht; [|discriminate].
    injection Hstep as <-. destruct (Hsettle _ _ Ht) as [H1 H2].
    unfold refresh_settled. destruct (res_json r); split; assumption.
  - destruct (take (ListMotion 50) (pending a)) as [rest|] eqn:Ht; [|discriminate].
    injection Hstep as <-. destruct (Hsettle _ _ Ht) as [H1 H2].
    unfold refreshMotion_settled.
    destruct (res_json r) as [d|]; [destruct (isArray d)|]; split; assumption.
  - destruct (timer a); [|discriminate]. injection Hstep as <-.
    apply request_keeps_unconfigured; [discriminate|split; assumption].
  - destruct (motionTimer a); [|discriminate]. injection Hstep as <-.
    apply request_keeps_unconfigured; [discriminate|split; assumption].
  - injection Hstep as <-.
    apply request_keeps_unconfigured; [discriminate|split; assumption].
  - destruct (take (TakeSnapshot id) (pending a)) as [rest|] eqn:Ht; [|discriminate].
    injection Hstep as <-. destruct (Hsettle _ _ Ht) as [H1 H2].
    unfold App.handleSnapshot_settled.
    destruct (res_json r) as [data|]; [|split; assumption].
    destruct (prop data "ok") as [flag|]; [|split; assumption].
    destruct (prop data "path") as [path|]; [|split; assumption].
    destruct (truthy flag && truthy path); [|split; assumption].
    destruct path as [[| | |p| |]|]; try (split; assumption).
    unfold persist. destruct ok; split; assumption.
  - injection Hstep as <-. destruct confirmed; [|split; assumption].
    apply request_keeps_unconfigured; [discriminate|split; assumption].
  - destruct (take (DeleteCamera id) (pending a)) as [rest|] eqn:Ht; [|discriminate].
    injection Hstep as <-. pose proof (Hsettle _ _ Ht) as Hu.
    unfold handleDelete_settled.
    destruct (res_json r) as [d|]; [|exact Hu].
    destruct (prop d "ok") as [f|]; [|exact Hu].
    destruct (truthy f); [|exact Hu].
    apply request_keeps_unconfigured; [discriminate|exact Hu].
Qed.

Lemma step_keeps_unconfigured (a a' : app) (e : event) :
  step a e = Some a' -> unconfigured a -> unconfigured a'.
Proof.
  intros He Hu.
  destruct (step_inv a a' e He) as (h & Hh & Hp & _ & Hv).
  destruct (handle_keeps_unconfigured a h e Hh Hu) as [Hhp Hhb].
  split; [rewrite Hp; exact Hhp|].
  destruct Hv as [[_ ->]|(_ & _ & ->)].
  - destruct (commit_view h) as (_ & _ & -> & _). exact Hhb.
  - apply Hu.
Qed.

Lemma run_keeps_unconfigured (es : list event) (a a' : app) :
  run a es = Some a' -> unconfigured a -> unconfigured a'.
Proof.
  intros Hrun Hu. revert es a a' Hu Hrun. apply run_invariant.
  intros a e a' Hu He. eapply step_keeps_unconfigured; eassumption.
Qed.

(** The handlers ask for no configuration, and only the reply to the one
    request of the mount sets the base. *)
Lemma handle_configuring (a h : app) (e : event) :
  handle a e = Some h ->
  config_calls (pending h) <= config_calls (pending a)
  /\ (configuring a -> configuring h).
Proof.
  unfold configuring, config_calls.
  destruct e as [r|r|r| | |id|id r now ok|id confirmed|id r]; cbn;
    unfold settle.
  - destruct (take GetConfig (pending a)) as [rest|] eqn:Ht; [|discriminate].
    intros [= <-].
    pose proof (take_filter_length is_config_call _ _ _ Ht) as Hn. cbn in Hn.
    unfold App.on_config.
    destruct (res_json r) as [cfg|]; [destruct (prop cfg "webrtcBase")|];
      cbn; (split; [lia|]); intros [[H1 H2]|H0]; right; lia.
  - destruct (take ListCameras (pending a)) as [rest|] eqn:Ht; [|discriminate].
    intros [= <-].
    pose proof (take_filter_length is_config_call _ _ _ Ht) as Hn. cbn in Hn.
    unfold refresh_settled. destruct (res_json r); cbn;
      (split; [lia|]); intros [[H1 H2]|H0]; [left|right|left|right];
      try (split; [lia|exact H2]); lia.
  - destruct (take (ListMotion 50) (pending a)) as [rest|] eqn:Ht; [|discriminate].
    intros [= <-].
    pose proof (take_filter_length is_config_call _ _ _ Ht) as Hn. cbn in Hn.
    unfold refreshMotion_settled.
    destruct (res_json r) as [d|]; [destruct (isArray d)|]; cbn;
      (split; [lia|]); (intros [[H1 H2]|H0]; [left; split; [lia|exact H2]|right; lia]).
  - destruct (timer a); [|discriminate]. intros [= <-]. cbn.
    rewrite snoc_filter_length. cbn.
    split; [lia|]. intros [[H1 H2]|H0]; [left; split; [lia|exact H2]|right; lia].
  - destruct (motionTimer a); [|discriminate]. intros [= <-]. cbn.
    rewrite snoc_filter_length. cbn.
    split; [lia|]. intros [[H1 H2]|H0]; [left; split; [lia|exact H2]|right; lia].
  - intros [= <-]. cbn. rewrite snoc_filter_length. cbn.
    split; [lia|]. intros [[H1 H2]|H0]; [left; split; [lia|exact H2]|right; lia].
  - destruct (take (TakeSnapshot id) (pending a)) as [rest|] eqn:Ht; [|discriminate].
    intros [= <-].
    pose proof (take_filter_length is_config_call _ _ _ Ht) as Hn. cbn in Hn.
    assert (Hk : pending (handleSnapshot_settled id r now ok (set_pending rest a))
                 = rest
                 /\ webrtcBase (handleSnapshot_settled id r now ok
                                  (set_pending rest a)) = webrtcBase a).
    { unfold App.handleSnapshot_settled.
      destruct (res_json r) as [data|]; [|split; reflexivity].
      destruct (prop data "ok") as [flag|]; [|split; reflexivity].
      destruct (prop data "path") as [path|]; [|split; reflexivity].
      destruct (truthy flag && truthy path); [|split; reflexivity].
      destruct path as [[| | |p| |]|]; try (split; reflexivity).
      unfold persist. destruct ok; split; reflexivity. }
    destruct Hk as [-> ->].
    split; [lia|]. intros [[H1 H2]|H0]; [left; split; [lia|exact H2]|right; lia].
  - intros [= <-]. destruct confirmed; cbn; rewrite ?snoc_filter_length; cbn;
      (split; [lia|]);
      (intros [[H1 H2]|H0]; [left; split; [lia|exact H2]|right; lia]).
  - destruct (take (DeleteCamera id) (pending a)) as [rest|] eqn:Ht; [|discriminate].
    intros [= <-].
    pose proof (take_filter_length is_config_call _ _ _ Ht) as Hn. cbn in Hn.
    unfold handleDelete_settled.
    destruct (res_json r) as [d|];
      [destruct (prop d "ok") as [f|]; [destruct (truthy f)|]|]; cbn;
      rewrite ?snoc_filter_length; cbn; (split; [lia|]);
      (intros [[H1 H2]|H0]; [left; split; [lia|exact H2]|right; lia]).
Qed.

Lemma step_configuring (a a' : app) (e : event) :
  configuring a -> step a e = Some a' -> configuring a'.
Proof.
  intros Hc He.
  destruct (step_inv a a' e He) as (h & Hh & Hp & _ & Hv).
  destruct (handle_configuring a h e Hh) as [Hle Hk]. specialize (Hk Hc).
  unfold configuring in *. rewrite Hp.
  destruct Hv as [[_ ->]|(_ & _ & ->)].
  - destruct (commit_view h) as (_ & _ & -> & _). exact Hk.
  - cbn. destruct Hc as [[H1 H2]|H0]; [|right; lia].
    destruct Hk as [[H3 _]|H3]; [left; split; [exact H3|exact H2]|right; exact H3].
Qed.

Lemma mount_configuring (stored : option (list snapshot)) (storage_ok : bool) :
  configuring (mount stored storage_ok).
Proof.
  left. unfold mount, persist. destruct storage_ok; split; reflexivity.
Qed.

(** While the tree is mounted its last render has returned. *)
Lemma step_rendered (a a' : app) (e : event) :
  step a e = Some a' -> mounted a' = true -> render_ok a' = true.
Proof.
  intros He.
  destruct (step_inv a a' e He) as (h & _ & _ & _ & [[_ ->]|(Hm & _ & ->)]).
  - unfold commit. destruct (render_ok h) eqn:Hok; [intros _; exact Hok|].
    discriminate.
  - cbn. rewrite Hm. discriminate.
Qed.

Lemma run_rendered (es : list event) (a a' : app) :
  (mounted a = true -> render_ok a = true) ->
  run a es = Some a' ->
  mounted a' = true -> render_ok a' = true.
Proof.
  intros Ha Hrun. revert es a a' Ha Hrun.
  apply (run_invariant (fun a => mounted a = true -> render_ok a = true)).
  intros a e a' _ He. eapply step_rendered. exact He.
Qed.

(** C10.  The configuration is asked for once, at mount, and its reply
    races with the replies of the polls.  Whenever it is rejected, after
    whatever came before, the rejection changes nothing of the view (it is
    only reported as unhandled) and the base is still the empty string; from
    then on, along every run of the dashboard, no configuration request is
    in flight, no further reply to one is accepted and the base stays
    empty.  A controller that is only ever rendered with an empty base never
    starts a bind cycle: it opens no connection, sends no request and shows
    no error, while its initial connecting hint stays on. *)
Theorem config_rejection_is_final (stored : option (list snapshot))
    (storage_ok : bool) (r : http_reply) (es1 es2 : list event) (a : app) :
  res_json r = None ->
  run (mount stored storage_ok) (es1 ++ ConfigSettled r :: es2)%list = Some a ->
  (exists a1 a2,
      run (mount stored storage_ok) es1 = Some a1
      /\ step a1 (ConfigSettled r) = Some a2
      /\ run a2 es2 = Some a
      /\ cameras a2 = cameras a1
      /\ snapshots a2 = snapshots a1
      /\ motionEvents a2 = motionEvents a1
      /\ mounted a2 = mounted a1
      /\ unhandled a2 = S (unhandled a1)
      /\ webrtcBase a2 = JStr "")
  /\ webrtcBase a = JStr ""
  /\ ~ In GetConfig (pending a)
  /\ (forall r', step a (ConfigSettled r') = None)
  /\ (forall cam t, Whep.bind_effect cam "" t = Whep.Returned None t)
  /\ (forall URL tes t,
        forallb Whep.unbound tes = true ->
        Whep.run URL Whep.init tes = Some t ->
        Whep.cycles t = [] /\ Whep.requests t = []
        /\ Whep.error t = "" /\ Whep.connecting t = true).
Proof.
  intros Hr Hrun.
  apply run_app in Hrun as (a1 & H1 & Hrun). cbn [App.run] in Hrun.
  destruct (step a1 (ConfigSettled r)) as [a2|] eqn:He; [|discriminate].
  assert (Hc1 : configuring a1).
  { revert H1. apply run_invariant; [|apply mount_configuring].
    intros x e x' Hx Hs. eapply step_configuring; eassumption. }
  destruct (step_inv a1 a2 _ He) as (h & Hh & Hp & Hun & Hv).
  cbn in Hh. unfold settle in Hh.
  destruct (take GetConfig (pending a1)) as [rest|] eqn:Ht; [|discriminate].
  injection Hh as <-. unfold App.on_config in *. rewrite Hr in *.
  pose proof (take_filter_length is_config_call _ _ _ Ht) as Hn. cbn in Hn.
  assert (Hb1 : webrtcBase a1 = JStr "" /\ config_calls rest = 0).
  { unfold configuring, config_calls in *.
    destruct Hc1 as [[Hk Hb]|Hk]; [split; [exact Hb|lia]|lia]. }
  destruct Hb1 as [Hb1 Hrest].
  assert (Hok1 : mounted a1 = true -> render_ok a1 = true).
  { eapply run_rendered; [|exact H1]. intros _.
    unfold mount, persist. destruct storage_ok; reflexivity. }
  assert (Ha2 : a2 = rejection (set_pending rest a1)
                \/ a2 = detached a1 (rejection (set_pending rest a1))).
  { destruct Hv as [[Hm ->]|(_ & _ & ->)]; [left|right; reflexivity].
    unfold commit.
    change (render_ok (rejection (set_pending rest a1))) with (render_ok a1).
    rewrite (Hok1 Hm). reflexivity. }
  assert (Hu2 : unconfigured a2).
  { split.
    - rewrite Hp. cbn. apply no_config_calls. exact Hrest.
    - destruct Ha2 as [-> | ->]; exact Hb1. }
  destruct (run_keeps_unconfigured es2 a2 a Hrun Hu2) as [Hpa Hba].
  split.
  { exists a1, a2. split; [exact H1|]. split; [exact He|].
    split; [exact Hrun|]. clear He.
    destruct Ha2 as [-> | ->]; cbn; repeat split; exact Hb1. }
  split; [exact Hba|]. split; [exact Hpa|].
  split.
  { intros r'. unfold App.step.
    destruct (mounted a); cbn; unfold settle;
      rewrite (take_absent GetConfig _ Hpa); reflexivity. }
  split; [intros cam t; reflexivity|].
  intros URL tes t Hall Ht'.
  destruct (run_keeps_idle URL tes Whep.init t init_idle Hall Ht')
    as (Hc & _ & Hq & _ & _ & Herr & Hcn).
  repeat split; assumption.
Qed.

(** *** Further properties of the dashboard *)

Ltac break_hyp H :=
  match type of H with
  | context [match ?x with _ => _ end] => destruct x eqn:?
  end.

Ltac break_goal :=
  match goal with
  | |- context [match ?x with _ => _ end] => destruct x eqn:?
  end.

(** Split a handler into the ways it can run. *)
Ltac handle_cases H e :=
  destruct e; cbn in H; unfold settle in H;
  repeat break_hyp H; try discriminate H; injection H as <-;
  unfold App.on_config, refresh_settled, refreshMotion_settled,
    App.handleSnapshot_settled, handleDelete_settled, handleSnapshot,
    handleDelete, refresh, refreshMotion, persist;
  repeat break_goal; cbn.

(** Rewrite the counts of calls in flight after a request or a reply. *)
Ltac count_calls :=
  unfold snapshot_calls, config_calls in *; cbn in *;
  repeat match goal with
         | H : take ?c ?l = Some ?l' |- _ =>
             pose proof (take_filter_length is_snapshot_call c l l' H);
             pose proof (take_filter_length is_config_call c l l' H);
             clear H
         end;
  rewrite ?snoc_filter_length in *; cbn in *.

(** No handler touches the timers or unmounts the tree: only the render
    does. *)
Lemma handle_flags (a h : app) (e : event) :
  handle a e = Some h ->
  mounted h = mounted a /\ timer h = timer a /\ motionTimer h = motionTimer a.
Proof.
  intros Hh. handle_cases Hh e; repeat split; congruence.
Qed.

(** The motion list is an array in every state of the dashboard: a reply
    of any other shape never reaches it. *)
Theorem motion_events_is_array (stored : option (list snapshot))
    (storage_ok : bool) (es : list event) (a : app) :
  run (mount stored storage_ok) es = Some a ->
  exists items, motionEvents a = JArr items.
Proof.
  apply (run_invariant (fun a => exists items, motionEvents a = JArr items)).
  - intros a0 e a' [items Hm] Hs.
    destruct (step_inv a0 a' e Hs) as (h & Hh & _ & _ & [[_ ->]|(_ & _ & ->)]);
      [|exists items; exact Hm].
    destruct (commit_view h) as (_ & _ & _ & -> & _).
    handle_cases Hh e; try (exists items; exact Hm).
    match goal with
    | H : isArray ?d = true |- _ => destruct d; try discriminate H
    end.
    eexists; reflexivity.
  - exists []. unfold mount, persist. destruct storage_ok; reflexivity.
Qed.

Lemma mounted_flags (stored : option (list snapshot)) (storage_ok : bool)
    (es : list event) (a : app) :
  run (mount stored storage_ok) es = Some a ->
  timer a = mounted a
  /\ motionTimer a = mounted a
  /\ (mounted a = true -> render_ok a = true).
Proof.
  intros Hrun.
  assert (Ht : timer a = mounted a /\ motionTimer a = mounted a).
  { revert Hrun.
    apply (run_invariant
             (fun a => timer a = mounted a /\ motionTimer a = mounted a)).
    - intros a0 e a' [H1 H2] Hs.
      destruct (step_inv a0 a' e Hs)
        as (h & Hh & _ & _ & [[_ ->]|(_ & _ & ->)]); [|split; assumption].
      destruct (handle_flags a0 h e Hh) as (Hm & Ht & Hmt).
      unfold commit. destruct (render_ok h); cbn; [|split; reflexivity].
      rewrite Hm, Ht, Hmt. split; assumption.
    - unfold mount, persist. destruct storage_ok; split; reflexivity. }
  destruct Ht as [Ht Hmt]. split; [exact Ht|]. split; [exact Hmt|].
  eapply run_rendered; [|exact Hrun]. intros _.
  unfold mount, persist. destruct storage_ok; reflexivity.
Qed.

(** Both interval timers are set exactly as long as the tree is mounted,
    and as long as it is mounted the camera list on the view is an array
    whose elements are not [null]. *)
Theorem timers_run_while_mounted (stored : option (list snapshot))
    (storage_ok : bool) (es : list event) (a : app) :
  run (mount stored storage_ok) es = Some a ->
  timer a = mounted a
  /\ motionTimer a = mounted a
  /\ (mounted a = true ->
      exists cams, cameras a = JArr cams /\ ~ In JNull cams).
Proof.
  intros Hrun.
  destruct (mounted_flags stored storage_ok es a Hrun) as (Ht & Hmt & Hok).
  split; [exact Ht|]. split; [exact Hmt|].
  intros Hm. specialize (Hok Hm).
  unfold render_ok in Hok. destruct (cameras a) as [| | | |cams|];
    try discriminate Hok.
  exists cams. split; [reflexivity|].
  apply andb_prop in Hok as [Hall _].
  intros Hin. rewrite forallb_forall in Hall. specialize (Hall _ Hin).
  discriminate Hall.
Qed.

(** What the two polls do with a reply, in a mounted dashboard.  A
    rejected request (network failure, or a body that is not JSON) leaves
    every collection as it was and the tree mounted, so the next tick asks
    again; an array replaces the collection it was asked for. *)
Theorem poll_replies_retain_or_replace (stored : option (list snapshot))
    (storage_ok : bool) (es : list event) (a a' : app) (r : http_reply) :
  run (mount stored storage_ok) es = Some a ->
  mounted a = true ->
  (step a (CamerasSettled r) = Some a' \/ step a (MotionSettled r) = Some a') ->
  (res_json r = None ->
     cameras a' = cameras a /\ motionEvents a' = motionEvents a
     /\ snapshots a' = snapshots a /\ mounted a' = true
     /\ (exists b, step a' Tick = Some b /\ In ListCameras (pending b))
     /\ (exists b, step a' MotionTick = Some b /\ In (ListMotion 50) (pending b)))
  /\ (forall items, res_json r = Some (JArr items) ->
        (step a (CamerasSettled r) = Some a' -> cameras a' = JArr items)
        /\ (step a (MotionSettled r) = Some a' -> motionEvents a' = JArr items)).
Proof.
  intros Hrun Hm Hs.
  destruct (mounted_flags stored storage_ok es a Hrun) as (Ht & Hmt & Hok).
  specialize (Hok Hm). rewrite Hm in Ht, Hmt.
  split.
  - intros Hr.
    assert (Ha' : exists rest, a' = rejection (set_pending rest a)).
    { destruct Hs as [Hs|Hs]; revert Hs; unfold App.step; rewrite Hm; cbn;
        unfold settle;
        [destruct (take ListCameras (pending a)) as [rest|]
        |destruct (take (ListMotion 50) (pending a)) as [rest|]];
        try discriminate; cbn;
        unfold refresh_settled, refreshMotion_settled; rewrite Hr;
        unfold commit;
        change (render_ok (rejection (set_pending rest a))) with (render_ok a);
        rewrite Hok; intros [= <-]; exists rest; reflexivity. }
    destruct Ha' as [rest ->]. cbn.
    do 3 (split; [reflexivity|]). split; [exact Hm|].
    split; eexists; (split;
      [unfold App.step; cbn; rewrite Hm; cbn; rewrite ?Ht, ?Hmt; cbn;
       unfold commit;
       match goal with
       | |- context [render_ok ?x] => change (render_ok x) with (render_ok a)
       end;
       rewrite Hok; reflexivity
      |cbn; apply in_or_app; right; left; reflexivity]).
  - intros items Hr. split; intros Hs'; revert Hs'; unfold App.step;
      rewrite Hm; cbn; unfold settle;
      [destruct (take ListCameras (pending a)) as [rest|]
      |destruct (take (ListMotion 50) (pending a)) as [rest|]];
      try discriminate; cbn;
      unfold refresh_settled, refreshMotion_settled; rewrite Hr; cbn;
      intros [= <-]; unfold commit;
      match goal with
      | |- context [render_ok ?x] => destruct (render_ok x)
      end; reflexivity.
Qed.

Lemma mount_snapshots (stored : option (list snapshot)) (storage_ok : bool) :
  snapshots (mount stored storage_ok) = default [] stored.
Proof. unfold mount, persist. destruct storage_ok; reflexivity. Qed.

(** What a reload finds in storage is the live history without, at most,
    its newest records; when every write to storage succeeded it is the live
    history itself. *)
Theorem reload_restores_stored_history (stored : option (list snapshot))
    (storage_ok reload_ok : bool) (es : list event) (a : app) :
  run (mount stored storage_ok) es = Some a ->
  (exists newer,
      snapshots a = (newer ++ snapshots (mount (storage a) reload_ok))%list)
  /\ (storage_ok = true ->
      existsb storage_failed es = false ->
      snapshots (mount (storage a) reload_ok) = snapshots a).
Proof.
  intros Hrun. rewrite mount_snapshots. split.
  - revert Hrun.
    apply (run_invariant
             (fun a => exists newer,
                  snapshots a = (newer ++ default [] (storage a))%list)).
    + intros a0 e a' [newer Hn] Hs.
      destruct (step_inv a0 a' e Hs)
        as (h & Hh & _ & _ & [[_ ->]|(_ & _ & ->)]);
        [|exists newer; exact Hn].
      destruct (commit_view h) as (_ & -> & _ & _ & ->).
      handle_cases Hh e;
        first [ exists newer; exact Hn
              | exists []; reflexivity
              | eexists (_ :: newer); cbn; f_equal; exact Hn ].
    + exists []. rewrite mount_snapshots.
      unfold mount, persist. destruct storage_ok; reflexivity.
  - intros -> Hall.
    assert (H : forall es a0 a', run a0 es = Some a' ->
              existsb storage_failed es = false ->
              storage a0 = Some (snapshots a0) ->
              storage a' = Some (snapshots a')).
    { clear. intros es. induction es as [|e es IH]; intros a0 a'; cbn.
      - intros [= <-] _ H. exact H.
      - destruct (step a0 e) as [a1|] eqn:He; [|discriminate].
        intros Hrun Hall Hst. apply orb_false_elim in Hall as [Hf Hall].
        apply (IH a1 a' Hrun Hall). clear Hrun IH Hall.
        destruct (step_inv a0 a1 e He)
          as (h & Hh & _ & _ & [[_ ->]|(_ & _ & ->)]); [|exact Hst].
        destruct (commit_view h) as (_ & -> & _ & _ & ->).
        handle_cases Hh e; try exact Hst; try reflexivity; discriminate Hf. }
    rewrite (H es _ a Hrun Hall); reflexivity.
Qed.

(** A snapshot reply that is not of the awaited shape (the request failed,
    the body is not an object with a truthy [ok] and a non-empty string
    [path]) adds no record and leaves storage and every collection as they
    were. *)
Theorem malformed_snapshot_reply_adds_nothing (a : app) (id : string)
    (r : http_reply) (now : Z) (storage_ok : bool) :
  snapshot_path r = None ->
  snapshots (handleSnapshot_settled id r now storage_ok a) = snapshots a
  /\ storage (handleSnapshot_settled id r now storage_ok a) = storage a
  /\ cameras (handleSnapshot_settled id r now storage_ok a) = cameras a
  /\ motionEvents (handleSnapshot_settled id r now storage_ok a)
     = motionEvents a
  /\ pending (handleSnapshot_settled id r now storage_ok a) = pending a.
Proof.
  unfold snapshot_path, App.handleSnapshot_settled.
  destruct (res_json r) as [data|]; [|repeat split].
  destruct (prop data "ok") as [flag|]; [|repeat split].
  destruct (prop data "path") as [path|]; [|repeat split].
  destruct (truthy flag); cbn; [|repeat split].
  destruct path as [[| | |p| |]|]; cbn; try (repeat split; fail).
  - destruct b; repeat split.
  - destruct (negb (Z.eqb n 0)); repeat split.
  - destruct (truthy_str p); [discriminate|repeat split].
Qed.

Lemma handle_snapshot_calls (a h : app) (e : event) :
  handle a e = Some h ->
  length (snapshots h) + snapshot_calls (pending h)
  <= length (snapshots a) + snapshot_calls (pending a)
     + (if is_snapshot_click e then 1 else 0)
  /\ length (snapshots a) <= length (snapshots h).
Proof.
  intros Hh. handle_cases Hh e; count_calls; lia.
Qed.

(** The history never holds more new records than snapshot buttons were
    clicked: a reply is consumed with the request it answers. *)
Theorem snapshots_bounded_by_clicks (es : list event) (a a' : app) :
  run a es = Some a' ->
  length (snapshots a') + snapshot_calls (pending a')
  <= length (snapshots a) + snapshot_calls (pending a) + clicks es.
Proof.
  revert a. induction es as [|e es IH]; intros a; cbn.
  - intros [= <-]. unfold clicks. cbn. lia.
  - destruct (step a e) as [a1|] eqn:He; [|discriminate].
    intros Hrun. specialize (IH a1 Hrun).
    assert (Hstep : length (snapshots a1) + snapshot_calls (pending a1)
                    <= length (snapshots a) + snapshot_calls (pending a)
                       + (if is_snapshot_click e then 1 else 0)).
    { clear Hrun IH.
      destruct (step_inv a a1 e He) as (h & Hh & Hp & _ & Hv).
      destruct (handle_snapshot_calls a h e Hh) as [H1 H2]. rewrite Hp.
      destruct Hv as [[_ ->]|(_ & _ & ->)].
      - destruct (commit_view h) as (_ & -> & _). exact H1.
      - cbn. lia. }
    unfold clicks in *. cbn. destruct (is_snapshot_click e); cbn; lia.
Qed.

Lemma handle_base_frozen (a h : app) (e : event) :
  handle a e = Some h ->
  config_calls (pending a) = 0 ->
  config_calls (pending h) = 0 /\ webrtcBase h = webrtcBase a.
Proof.
  intros Hh H0. handle_cases Hh e; count_calls;
    split; first [lia | reflexivity].
Qed.

(** As long as the configuration request is in flight the gateway base is
    the empty string; once it settled, whichever way, the base never changes
    again. *)
Theorem gateway_base_is_set_once (stored : option (list snapshot))
    (storage_ok : bool) (es : list event) (a : app) :
  run (mount stored storage_ok) es = Some a ->
  (config_calls (pending a) = 1 /\ webrtcBase a = JStr "")
  \/ (config_calls (pending a) = 0
      /\ forall es' a', run a es' = Some a' -> webrtcBase a' = webrtcBase a).
Proof.
  intros Hrun.
  assert (Hfrozen : forall es' a0 a',
             run a0 es' = Some a' -> config_calls (pending a0) = 0 ->
             webrtcBase a' = webrtcBase a0).
  { clear. intros es'. induction es' as [|e es' IH]; intros a0 a'; cbn.
    - intros [= <-] _. reflexivity.
    - destruct (step a0 e) as [a1|] eqn:He; [|discriminate].
      intros Hrun H0.
      assert (H1 : config_calls (pending a1) = 0 /\ webrtcBase a1 = webrtcBase a0).
      { clear Hrun IH.
        destruct (step_inv a0 a1 e He) as (h & Hh & Hp & _ & Hv).
        destruct (handle_base_frozen a0 h e Hh H0) as [H1 H2]. rewrite Hp.
        split; [exact H1|].
        destruct Hv as [[_ ->]|(_ & _ & ->)]; [|reflexivity].
        destruct (commit_view h) as (_ & _ & -> & _). exact H2. }
      destruct H1 as [H1 <-]. apply (IH a1 a' Hrun H1). }
  assert (Hinv : configuring a).
  { revert Hrun. apply run_invariant; [|apply mount_configuring].
    intros x e x' Hx Hs. eapply step_configuring; eassumption. }
  destruct Hinv as [Hc|Hc]; [left; exact Hc|].
  right. split; [exact Hc|]. intros es' a' Hr.
  apply (Hfrozen es' a a' Hr Hc).
Qed.



Lemma handle_writers (a h : app) (e : event) :
  handle a e = Some h ->
  (cameras h <> cameras a -> exists r, e = CamerasSettled r)
  /\ (motionEvents h <> motionEvents a -> exists r, e = MotionSettled r)
  /\ (snapshots h <> snapshots a ->
      exists id r now ok, e = SnapshotSettled id r now ok)
  /\ (webrtcBase h <> webrtcBase a -> exists r, e = ConfigSettled r).
Proof.
  intros Hs.
  handle_cases Hs e;
    (split; [|split; [|split]]);
    intros Hne; try (exfalso; apply Hne; reflexivity); eauto.
Qed.

(** Each collection on the view is written by the reply to its own request
    and by nothing else: deleting a camera or taking a snapshot never edits
    the camera list locally, a poll never touches the history or the gateway
    base. *)
Theorem collections_have_one_writer (a a' : app) (e : event) :
  step a e = Some a' ->
  (cameras a' <> cameras a -> exists r, e = CamerasSettled r)
  /\ (motionEvents a' <> motionEvents a -> exists r, e = MotionSettled r)
  /\ (snapshots a' <> snapshots a ->
      exists id r now ok, e = SnapshotSettled id r now ok)
  /\ (webrtcBase a' <> webrtcBase a -> exists r, e = ConfigSettled r).
Proof.
  intros Hs.
  destruct (step_inv a a' e Hs) as (h & Hh & _ & _ & [[_ ->]|(_ & _ & ->)]).
  - destruct (commit_view h) as (-> & -> & -> & -> & _).
    apply handle_writers. exact Hh.
  - cbn. repeat split; intros Hne; exfalso; apply Hne; reflexivity.
Qed.

Lemma strip_slash_snoc (s : string) : strip_slash (s +:+ "/") = s.
Proof.
  induction s as [|a s IH]; [reflexivity|].
  change (String a s +:+ "/") with (String a (s +:+ "/")).
  assert (H : strip_slash (String a (s +:+ "/"))
              = String a (strip_slash (s +:+ "/"))) by (destruct s; reflexivity).
  rewrite H, IH. reflexivity.
Qed.

(** One trailing slash of the configured API base is dropped before paths
    are appended, so a base written with or without it gives the same URLs;
    a second trailing slash is kept; without a base, or with the base [/],
    the path is used as it is. *)
Theorem api_base_drops_one_slash (b path : string) :
  App.buildApiUrl (b +:+ "/") path
  = (if truthy_str b then b +:+ path else path)
  /\ App.apiBase ((b +:+ "/") +:+ "/") = b +:+ "/"
  /\ App.buildApiUrl "" path = path.
Proof.
  assert (Hor : forall x, or_str x "" = x) by (intros [|c x]; reflexivity).
  unfold App.buildApiUrl, App.apiBase. rewrite !Hor.
  split; [|split].
  - rewrite strip_slash_snoc. destruct (truthy_str b); reflexivity.
  - apply strip_slash_snoc.
  - reflexivity.
Qed.

End Dashboard.


Lemma config_rejection_is_final_witness :
  exists a,
    App.run "" "http:" "hub" (App.mount None true)
      (AppScenario.first_polls
       ++ App.ConfigSettled App.NetworkError
       :: [App.Tick;
           App.CamerasSettled (App.Reply 200 (Some AppScenario.two_cameras))])%list
    = Some a
    /\ App.cameras a = AppScenario.two_cameras
    /\ App.mounted a = true
    /\ App.webrtcBase a = App.JStr "".
Proof.
  eexists. split; [vm_compute; reflexivity|].
  split; [vm_compute; reflexivity|].
  split; [vm_compute; reflexivity|].
  eapply (config_rejection_is_final "" "http:" "hub" None true
            App.NetworkError AppScenario.first_polls
            [App.Tick;
             App.CamerasSettled (App.Reply 200 (Some AppScenario.two_cameras))]).
  - reflexivity.
  - vm_compute. reflexivity.
Defined.

Section DashboardWitnesses.
Import App AppFacts AppScenario.

Local Abbreviation run := (App.run "" "http:" "hub").
Local Abbreviation step := (App.step "" "http:" "hub").

Lemma motion_events_is_array_witness :
  exists a,
    run (mount None true)
      [MotionSettled error_reply; MotionTick;
       MotionSettled (Reply 200 (Some one_event)); MotionTick;
       MotionSettled NetworkError] = Some a
    /\ exists items, motionEvents a = JArr items.
Proof.
  eexists. split; [vm_compute; reflexivity|].
  apply (motion_events_is_array "" "http:" "hub" None true
           [MotionSettled error_reply; MotionTick;
            MotionSettled (Reply 200 (Some one_event)); MotionTick;
            MotionSettled NetworkError]).
  vm_compute; reflexivity.
Defined.

Lemma timers_run_while_mounted_witness :
  exists b,
    run (mount None true) (first_polls ++ [Tick; CamerasSettled error_reply])%list
    = Some b
    /\ mounted b = false
    /\ timer b = mounted b
    /\ motionTimer b = mounted b.
Proof.
  eexists. split; [vm_compute; reflexivity|]. split; [reflexivity|].
  match goal with
  | |- timer ?b = _ /\ _ =>
      assert (Hrun : run (mount None true)
                       (first_polls ++ [Tick; CamerasSettled error_reply])%list
                     = Some b) by (vm_compute; reflexivity)
  end.
  destruct (timers_run_while_mounted "" "http:" "hub" None true _ _ Hrun)
    as (Ht & Hmt & _).
  split; [exact Ht|exact Hmt].
Defined.

Lemma poll_replies_retain_or_replace_witness :
  exists a a',
    run (mount None true) (first_polls ++ [Tick])%list = Some a
    /\ step a (CamerasSettled NetworkError) = Some a'
    /\ cameras a' = cameras a
    /\ motionEvents a' = motionEvents a
    /\ mounted a' = true.
Proof.
  do 2 eexists. split; [vm_compute; reflexivity|].
  split; [vm_compute; reflexivity|].
  match goal with
  | |- cameras ?a' = cameras ?a /\ _ =>
      assert (Hrun : run (mount None true) (first_polls ++ [Tick])%list = Some a)
        by (vm_compute; reflexivity);
      assert (Hs : step a (CamerasSettled NetworkError) = Some a')
        by (vm_compute; reflexivity)
  end.
  destruct (poll_replies_retain_or_replace "" "http:" "hub" None true _ _ _
              NetworkError Hrun eq_refl (or_introl Hs)) as [H _].
  destruct (H eq_refl) as (Hc & Hm & _ & Hmo & _).
  split; [exact Hc|]. split; [exact Hm|exact Hmo].
Defined.

Lemma reload_restores_stored_history_witness :
  exists a,
    run (mount None true)
      [SnapshotClick "1"; SnapshotSettled "1" snapshot_reply 1700 true]
    = Some a
    /\ snapshots a = [mkSnapshot "1" 1700 "/snapshots/1.jpg"]
    /\ snapshots (mount (storage a) true) = snapshots a.
Proof.
  eexists. split; [vm_compute; reflexivity|]. split; [reflexivity|].
  eapply (reload_restores_stored_history "" "http:" "hub" None true true
            [SnapshotClick "1"; SnapshotSettled "1" snapshot_reply 1700 true]).
  - vm_compute; reflexivity.
  - reflexivity.
  - reflexivity.
Defined.

Lemma malformed_snapshot_reply_adds_nothing_witness :
  snapshots (App.handleSnapshot_settled "" "1" error_reply 1700 true polled)
  = snapshots polled
  /\ storage (App.handleSnapshot_settled "" "1" error_reply 1700 true polled)
     = storage polled.
Proof.
  destruct (malformed_snapshot_reply_adds_nothing "" polled "1" error_reply
              1700 true eq_refl) as (Hs & Hst & _).
  split; [exact Hs|exact Hst].
Defined.

Lemma snapshots_bounded_by_clicks_witness :
  exists a,
    run (mount None true)
      [SnapshotClick "1"; SnapshotClick "2";
       SnapshotSettled "2" snapshot_reply 1700 true;
       SnapshotSettled "1" error_reply 1701 true] = Some a
    /\ length (snapshots a) + snapshot_calls (pending a) <= 0 + 0 + 2.
Proof.
  eexists. split; [vm_compute; reflexivity|].
  apply (snapshots_bounded_by_clicks "" "http:" "hub"
           [SnapshotClick "1"; SnapshotClick "2";
            SnapshotSettled "2" snapshot_reply 1700 true;
            SnapshotSettled "1" error_reply 1701 true]
           (mount None true)).
  vm_compute; reflexivity.
Defined.

Lemma gateway_base_is_set_once_witness :
  exists a,
    run (mount None true)
      [ConfigSettled (Reply 200 (Some (JObj [("webrtcBase", JStr "https://gw")])))]
    = Some a
    /\ webrtcBase a = JStr "https://gw"
    /\ forall es' a', run a es' = Some a' -> webrtcBase a' = webrtcBase a.
Proof.
  eexists. split; [vm_compute; reflexivity|]. split; [reflexivity|].
  assert (H : run (mount None true)
                [ConfigSettled
                   (Reply 200 (Some (JObj [("webrtcBase", JStr "https://gw")])))]
              = Some (mkApp (JArr []) [] (JStr "https://gw") (JArr []) true
                        true true (Some []) [ListCameras; ListMotion 50] 0))
    by (vm_compute; reflexivity).
  destruct (gateway_base_is_set_once "" "http:" "hub" None true _ _ H)
    as [[_ Hb]|[_ Hb]]; [discriminate Hb|exact Hb].
Defined.


Lemma collections_have_one_writer_witness :
  exists a a',
    run (mount None true) (first_polls ++ [DeleteClick "1" true])%list = Some a
    /\ step a (DeleteSettled "1" (Reply 200 (Some (JObj [("ok", JBool true)]))))
       = Some a'
    /\ In ListCameras (pending a')
    /\ (cameras a' <> cameras a ->
        exists r,
          DeleteSettled "1" (Reply 200 (Some (JObj [("ok", JBool true)])))
          = CamerasSettled r).
Proof.
  do 2 eexists. split; [vm_compute; reflexivity|].
  split; [vm_compute; reflexivity|].
  split; [right; left; reflexivity|].
  eapply (collections_have_one_writer "" "http:" "hub").
  vm_compute; reflexivity.
Defined.

End DashboardWitnesses.
